(** * SBX Fantasy: results ingestion, scoring and standings

    A shallow embedding of the backend of the SBX fantasy starter
    (backend/pointsEngine.js and backend/server.js): the points rule
    table and [calculatePointsForResult], the token and role middleware,
    the registration, results and standings endpoints, and the five
    SQLite tables they read and write.

    Conventions of the embedding.
    - A request body is a JavaScript value as [JSON.parse] builds it,
      plus [VUndefined] for what a missing property reads as.  Numbers
      are the integer-valued ones (a [Z]); fractional numbers, NaN and
      the infinities are left out.
    - An exception is an explicit [Throw]; handlers thread the store.
    - A table is the list of its rows in insertion order, each row with
      its AUTOINCREMENT id.  A cell holds the value the driver binds for
      the JavaScript parameter; a column of TEXT affinity stores a
      number as its decimal text, while the rewriting of numeric-looking
      text in INTEGER and REAL columns is not modelled.
    - bcrypt and jsonwebtoken are parameters of the development. *)

From Stdlib Require Import ZArith List String Ascii Bool Lia.
From Stdlib Require Import Permutation Sorted DecimalString DecimalZ.
Import ListNotations.

Local Open Scope string_scope.
Local Open Scope Z_scope.

(** ** JavaScript values and exceptions *)

Set Warnings "-register-all".

Inductive value : Type :=
| VUndefined
| VNull
| VBool (b : bool)
| VNum (z : Z)
| VStr (s : string)
| VArr (xs : list value)
| VObj (props : list (string * value)).

Inductive exn : Type :=
| TypeError (msg : string)
| JsonWebTokenError (msg : string)
| BcryptError (msg : string).

Inductive outcome (A : Type) : Type :=
| Ok (a : A)
| Throw (e : exn).

Arguments Ok {A} a.
Arguments Throw {A} e.

Definition bind {A B : Type} (m : outcome A) (k : A -> outcome B) : outcome B :=
  match m with
  | Ok a => k a
  | Throw e => Throw e
  end.

Notation "x <- m ;; k" := (bind m (fun x => k))
  (at level 61, m at next level, right associativity).

(** Own properties of an object literal, first match.  [JSON.parse]
    keeps one value per key, so the keys of a body are distinct. *)
Fixpoint assoc {A : Type} (k : string) (l : list (string * A)) : option A :=
  match l with
  | [] => None
  | (k', a) :: rest => if String.eqb k k' then Some a else assoc k rest
  end.

(** [v.name] for the property names the server reads ([place],
    [athleteId], [time], [raceId], [results], [role], [email],
    [password], [name], [country], [date]): none of them is defined on
    a prototype of a parsed body, so only an object's own properties
    answer; reading a property of [null] or [undefined] throws. *)
Definition getProp (v : value) (name : string) : outcome value :=
  match v with
  | VUndefined => Throw (TypeError "Cannot read properties of undefined")
  | VNull => Throw (TypeError "Cannot read properties of null")
  | VObj props =>
      match assoc name props with
      | Some x => Ok x
      | None => Ok VUndefined
      end
  | _ => Ok VUndefined
  end.

(** Truthiness: [false], [0], the empty string, [null] and [undefined]
    are falsy. *)
Definition truthy (v : value) : bool :=
  match v with
  | VUndefined | VNull => false
  | VBool b => b
  | VNum z => negb (z =? 0)
  | VStr s => negb (String.eqb s "")
  | VArr _ | VObj _ => true
  end.

Definition isArray (v : value) : bool :=
  match v with
  | VArr _ => true
  | _ => false
  end.

(** [a || b] on values. *)
Definition orElse (a b : value) : value := if truthy a then a else b.

(** Number to string, for an integer-valued number: its decimal
    digits, with a minus sign when negative. *)
Definition numberToString (z : Z) : string :=
  NilZero.string_of_int (Z.to_int z).

(** ToString.  An array joins its elements with commas, [null] and
    [undefined] elements giving the empty string.  A parsed object
    answers "[object Object]" through [Object.prototype.toString]
    unless it has an own property [toString], which (never being a
    function in a parsed body) makes the conversion throw. *)
Fixpoint toStringJS (v : value) : outcome string :=
  match v with
  | VUndefined => Ok "undefined"
  | VNull => Ok "null"
  | VBool true => Ok "true"
  | VBool false => Ok "false"
  | VNum z => Ok (numberToString z)
  | VStr s => Ok s
  | VArr xs =>
      (fix join (l : list value) : outcome string :=
         match l with
         | [] => Ok ""
         | x :: rest =>
             s <- match x with
                  | VUndefined | VNull => Ok ""
                  | _ => toStringJS x
                  end ;;
             match rest with
             | [] => Ok s
             | _ => t <- join rest ;; Ok (s ++ "," ++ t)
             end
         end) xs
  | VObj props =>
      match assoc "toString" props with
      | Some _ => Throw (TypeError "Cannot convert object to primitive value")
      | None => Ok "[object Object]"
      end
  end.

(** The key a value denotes in [obj[v]]. *)
Definition toPropertyKey (v : value) : outcome string := toStringJS v.

(** ** backend/pointsEngine.js *)

Module PointsEngine.

(** The own properties of the [placePoints] literal. *)
Definition placePoints : list (string * Z) :=
  [ ("1", 100); ("2", 80); ("3", 65); ("4", 55);
    ("5", 45); ("6", 40); ("7", 36); ("8", 32) ].

(** What [placePoints] inherits: the members of [Object.prototype],
    each with the text it contributes when added to a number (the
    source text of a built-in function; "[object Object]" for the
    prototype object that [__proto__] reads). *)
Definition objectPrototype : list (string * string) :=
  [ ("constructor", "function Object() { [native code] }");
    ("__defineGetter__", "function __defineGetter__() { [native code] }");
    ("__defineSetter__", "function __defineSetter__() { [native code] }");
    ("hasOwnProperty", "function hasOwnProperty() { [native code] }");
    ("__lookupGetter__", "function __lookupGetter__() { [native code] }");
    ("__lookupSetter__", "function __lookupSetter__() { [native code] }");
    ("isPrototypeOf", "function isPrototypeOf() { [native code] }");
    ("propertyIsEnumerable", "function propertyIsEnumerable() { [native code] }");
    ("toString", "function toString() { [native code] }");
    ("valueOf", "function valueOf() { [native code] }");
    ("__proto__", "[object Object]");
    ("toLocaleString", "function toLocaleString() { [native code] }") ].

(** What a property read on [placePoints] evaluates to. *)
Inductive member : Type :=
| MUndefined
| MNumber (n : Z)
| MBuiltin (text : string).

Definition getMember (key : string) : member :=
  match assoc key placePoints with
  | Some n => MNumber n
  | None =>
      match assoc key objectPrototype with
      | Some text => MBuiltin text
      | None => MUndefined
      end
  end.

Definition memberTruthy (m : member) : bool :=
  match m with
  | MUndefined => false
  | MNumber n => negb (n =? 0)
  | MBuiltin _ => true
  end.

(** [placePoints[result.place]] *)
Definition placePointsAt (result : value) : outcome member :=
  place <- getProp result "place" ;;
  key <- toPropertyKey place ;;
  Ok (getMember key).

(** [pts += m]: numeric addition for a number, string concatenation
    for a function or an object, NaN never arises here because the
    guard excludes [undefined]. *)
Definition plusAssign (pts : Z) (m : member) : value :=
  match m with
  | MNumber n => VNum (pts + n)
  | MBuiltin text => VStr (numberToString pts ++ text)
  | MUndefined => VNum pts
  end.

Definition calculatePointsForResult (result : value) : outcome value :=
  let pts := 0 in
  c <- placePointsAt result ;;
  if memberTruthy c
  then m <- placePointsAt result ;; Ok (plusAssign pts m)
  else Ok (VNum pts).

End PointsEngine.

Import PointsEngine.

(** ** The store: five SQLite tables *)

Inductive sqlval : Type :=
| SNull
| SInt (z : Z)
| SText (s : string).

Definition sqlval_eqb (a b : sqlval) : bool :=
  match a, b with
  | SNull, SNull => true
  | SInt x, SInt y => x =? y
  | SText x, SText y => String.eqb x y
  | _, _ => false
  end.

Record user : Type := mkUser
  { user_id : Z; user_email : sqlval; user_password : sqlval;
    user_name : sqlval; user_role : sqlval }.

Record athlete : Type := mkAthlete
  { athlete_id : Z; athlete_name : sqlval; athlete_country : sqlval }.

Record race : Type := mkRace
  { race_id : Z; race_name : sqlval; race_date : sqlval }.

Record result : Type := mkResult
  { result_id : Z; result_raceId : sqlval; result_athleteId : sqlval;
    result_place : sqlval; result_time : sqlval; result_points : sqlval }.

Record fantasy_score : Type := mkFantasyScore
  { fs_id : Z; fs_athleteId : sqlval; fs_raceId : sqlval; fs_points : sqlval }.

Record store : Type := mkStore
  { users : list user;
    athletes : list athlete;
    races : list race;
    results : list result;
    fantasy_scores : list fantasy_score }.

(** The tables right after the CREATE TABLE statements. *)
Definition emptyStore : store := mkStore [] [] [] [] [].

(** The id an AUTOINCREMENT primary key gives the next row.  No path
    of the server deletes a row, so it is one more than the largest
    id in the table. *)
Definition nextId (ids : list Z) : Z := 1 + fold_right Z.max 0 ids.

(** How the sqlite3 driver binds a JavaScript parameter: a string as
    text, a number as a number, a boolean as 0 or 1, [null] as NULL,
    [undefined] left unbound (which reads as NULL), an array or any
    other object as the text "[object Object]"; it never throws. *)
Definition bindParameter (v : value) : outcome sqlval :=
  match v with
  | VUndefined | VNull => Ok SNull
  | VBool b => Ok (SInt (if b then 1 else 0))
  | VNum z => Ok (SInt z)
  | VStr s => Ok (SText s)
  | VArr _ | VObj _ => Ok (SText "[object Object]")
  end.

(** What a column of TEXT affinity stores for a bound value: a number
    as its decimal text. *)
Definition textAffinity (c : sqlval) : sqlval :=
  match c with
  | SInt z => SText (numberToString z)
  | _ => c
  end.

(** Handlers run in a monad that threads the store and may throw; what
    was written before a throw stays written. *)
Definition M (A : Type) : Type := store -> store * outcome A.

Definition ret {A : Type} (a : A) : M A := fun st => (st, Ok a).

Definition lift {A : Type} (m : outcome A) : M A := fun st => (st, m).

Definition bindM {A B : Type} (m : M A) (k : A -> M B) : M B :=
  fun st =>
    match m st with
    | (st1, Ok a) => k a st1
    | (st1, Throw e) => (st1, Throw e)
    end.

Notation "x <~ m ;; k" := (bindM m (fun x => k))
  (at level 61, m at next level, right associativity).

(** [xs.forEach(f)] *)
Fixpoint forEach (xs : list value) (f : value -> M unit) : M unit :=
  match xs with
  | [] => ret tt
  | x :: rest => _ <~ f x ;; forEach rest f
  end.

(** What a [db.run] reports to its callback: [this.lastID], or an
    error. *)
Inductive runResult : Type :=
| RunOk (lastID : Z)
| RunErr (message : string).

(** INSERT INTO users (email,password,name) VALUES (?,?,?), with
    [role] taking the column default 'user' when it is not given;
    [email] is UNIQUE (NULLs apart). *)
Definition insertUser (email password name : value) (role : option value)
  : M runResult :=
  fun st =>
    match (e <- bindParameter email ;; p <- bindParameter password ;;
           n <- bindParameter name ;;
           r <- match role with
                | Some v => bindParameter v
                | None => Ok (SText "user")
                end ;;
           Ok (textAffinity e, textAffinity p, textAffinity n, textAffinity r)) with
    | Throw x => (st, Throw x)
    | Ok (e, p, n, r) =>
        if negb (sqlval_eqb e SNull)
           && existsb (fun u => sqlval_eqb (user_email u) e) (users st)
        then (st, Ok (RunErr "SQLITE_CONSTRAINT: UNIQUE constraint failed: users.email"))
        else
          let id := nextId (map user_id (users st)) in
          (mkStore (users st ++ [mkUser id e p n r]) (athletes st) (races st)
                   (results st) (fantasy_scores st),
           Ok (RunOk id))
    end.

(** INSERT INTO athletes (name,country) VALUES (?,?) *)
Definition insertAthlete (name country : value) : M runResult :=
  fun st =>
    match (n <- bindParameter name ;; c <- bindParameter country ;;
           Ok (textAffinity n, textAffinity c)) with
    | Throw x => (st, Throw x)
    | Ok (n, c) =>
        let id := nextId (map athlete_id (athletes st)) in
        (mkStore (users st) (athletes st ++ [mkAthlete id n c]) (races st)
                 (results st) (fantasy_scores st),
         Ok (RunOk id))
    end.

(** INSERT INTO races (name,date) VALUES (?,?) *)
Definition insertRace (name date : value) : M runResult :=
  fun st =>
    match (n <- bindParameter name ;; d <- bindParameter date ;;
           Ok (textAffinity n, textAffinity d)) with
    | Throw x => (st, Throw x)
    | Ok (n, d) =>
        let id := nextId (map race_id (races st)) in
        (mkStore (users st) (athletes st) (races st ++ [mkRace id n d])
                 (results st) (fantasy_scores st),
         Ok (RunOk id))
    end.

(** INSERT INTO results (raceId, athleteId, place, time, points)
    VALUES (?,?,?,?,?) *)
Definition insertResult (raceId athleteId place time points : value) : M unit :=
  fun st =>
    match (r <- bindParameter raceId ;; a <- bindParameter athleteId ;;
           p <- bindParameter place ;; t <- bindParameter time ;;
           s <- bindParameter points ;; Ok (r, a, p, t, s)) with
    | Throw x => (st, Throw x)
    | Ok (r, a, p, t, s) =>
        let id := nextId (map result_id (results st)) in
        (mkStore (users st) (athletes st) (races st)
                 (results st ++ [mkResult id r a p t s]) (fantasy_scores st),
         Ok tt)
    end.

(** INSERT INTO fantasy_scores (athleteId, raceId, points) VALUES (?,?,?) *)
Definition insertFantasyScore (athleteId raceId points : value) : M unit :=
  fun st =>
    match (a <- bindParameter athleteId ;; r <- bindParameter raceId ;;
           s <- bindParameter points ;; Ok (a, r, s)) with
    | Throw x => (st, Throw x)
    | Ok (a, r, s) =>
        let id := nextId (map fs_id (fantasy_scores st)) in
        (mkStore (users st) (athletes st) (races st) (results st)
                 (fantasy_scores st ++ [mkFantasyScore id a r s]),
         Ok tt)
    end.

(** ** HTTP: requests, responses, middleware *)

Record request : Type := mkRequest
  { authorization : option string;   (* req.headers.authorization *)
    body : value }.                  (* req.body *)

(** A handler answers with a status and a JSON body, or lets an
    exception escape (the request then gets no answer of its own). *)
Inductive response : Type :=
| Json (status : Z) (payload : value)
| Uncaught (e : exn).

Definition message (text : string) : value := VObj [("message", VStr text)].

Definition runHandler (h : M response) (st : store) : store * response :=
  match h st with
  | (st1, Ok r) => (st1, r)
  | (st1, Throw e) => (st1, Uncaught e)
  end.

(** A middleware either passes on (with what it computed) or answers. *)
Inductive passage (A : Type) : Type :=
| Next (a : A)
| Respond (r : response).

Arguments Next {A} a.
Arguments Respond {A} r.

(** [s.split(sep)] for a one-character separator. *)
Fixpoint split (sep : ascii) (s : string) : list string :=
  match s with
  | EmptyString => [""]
  | String c rest =>
      if Ascii.eqb c sep then "" :: split sep rest
      else match split sep rest with
           | [] => [String c ""]
           | w :: ws => String c w :: ws
           end
  end.

(** bcrypt and jsonwebtoken (with the server's SECRET) as the server
    uses them: [bcrypt.hash(s, 10)], [jwt.sign(payload, SECRET, ..)]
    and [jwt.verify(token, SECRET)], the latter [None] where it
    throws. *)
Class Crypto : Type :=
  { bcryptHash : string -> string;
    jwtSign : value -> string;
    jwtVerify : string -> option value }.

Section Server.

Context {crypto : Crypto}.

Definition generateToken (payload : value) : string := jwtSign payload.

(** [authMiddleware]: on success the decoded user is [req.user]. *)
Definition authMiddleware (req : request) : passage value :=
  match authorization req with
  | None => Respond (Json 401 (message "Missing auth"))
  | Some header =>
      if String.eqb header "" then Respond (Json 401 (message "Missing auth"))
      else
        let token := nth_error (split " " header) 1 in
        match match token with
              | Some t => jwtVerify t
              | None => None
              end with
        | Some user => Next user
        | None => Respond (Json 401 (message "Invalid token"))
        end
  end.

(** [a !== b] against a string literal. *)
Definition notStrictEqualString (a : value) (lit : string) : bool :=
  match a with
  | VStr s => negb (String.eqb s lit)
  | _ => true
  end.

Definition roleOf (user : value) : value :=
  match getProp user "role" with
  | Ok r => r
  | Throw _ => VUndefined
  end.

Definition requireAdmin (user : value) : passage unit :=
  if negb (truthy user) || notStrictEqualString (roleOf user) "admin"
  then Respond (Json 403 (message "Admin required"))
  else Next tt.

(** A route behind [authMiddleware, requireAdmin]. *)
Definition adminRoute (h : value -> M response) (req : request) (st : store)
  : store * response :=
  match authMiddleware req with
  | Respond r => (st, r)
  | Next user =>
      match requireAdmin user with
      | Respond r => (st, r)
      | Next _ => runHandler (h (body req)) st
      end
  end.

(** ** Routes *)

(** POST /api/auth/register *)
Definition registerHandler (reqBody : value) : M response :=
  email <~ lift (getProp reqBody "email") ;;
  password <~ lift (getProp reqBody "password") ;;
  name <~ lift (getProp reqBody "name") ;;
  if negb (truthy email) || negb (truthy password)
  then ret (Json 400 (message "Email + password required"))
  else
    hash <~ lift (match password with
                  | VStr s => Ok (VStr (bcryptHash s))
                  | _ => Throw (BcryptError "data must be a string or Buffer")
                  end) ;;
    r <~ insertUser email hash (orElse name (VStr "")) None ;;
    match r with
    | RunErr msg => ret (Json 400 (message msg))
    | RunOk lastID =>
        let token := generateToken
          (VObj [("id", VNum lastID); ("email", email); ("role", VStr "user")]) in
        ret (Json 200 (VObj [("token", VStr token)]))
    end.

Definition postRegister (req : request) (st : store) : store * response :=
  runHandler (registerHandler (body req)) st.

(** The default admin the server inserts at start-up when no user has
    its e-mail. *)
Definition adminEmail : string := "admin@sbx.local".

Definition bootstrap (st : store) : store :=
  if existsb (fun u => sqlval_eqb (user_email u) (SText adminEmail)) (users st)
  then st
  else fst (insertUser (VStr adminEmail) (VStr (bcryptHash "adminpass"))
                       (VStr "Administrator") (Some (VStr "admin")) st).

(** POST /api/athletes *)
Definition athletesHandler (reqBody : value) : M response :=
  name <~ lift (getProp reqBody "name") ;;
  country <~ lift (getProp reqBody "country") ;;
  r <~ insertAthlete name country ;;
  match r with
  | RunErr msg => ret (Json 400 (message msg))
  | RunOk lastID =>
      ret (Json 200 (VObj [("id", VNum lastID); ("name", name); ("country", country)]))
  end.

Definition postAthletes : request -> store -> store * response :=
  adminRoute athletesHandler.

(** POST /api/races *)
Definition racesHandler (reqBody : value) : M response :=
  name <~ lift (getProp reqBody "name") ;;
  date <~ lift (getProp reqBody "date") ;;
  r <~ insertRace name date ;;
  match r with
  | RunErr msg => ret (Json 400 (message msg))
  | RunOk lastID =>
      ret (Json 200 (VObj [("id", VNum lastID); ("name", name); ("date", date)]))
  end.

Definition postRaces : request -> store -> store * response :=
  adminRoute racesHandler.

End Server.

(** POST /api/results: the body of the [forEach] callback.  Here and
    in [resultsHandler] an INSERT takes effect where the source queues
    it, so the store that comes with the answer is the store once the
    statements of the request have run, in the order queued and with
    nothing in between; [submitResults] below keeps the answer and the
    queue apart. *)
Definition storeEntry (raceId : value) (r : value) : M unit :=
  pts <~ lift (calculatePointsForResult r) ;;
  athleteId <~ lift (getProp r "athleteId") ;;
  place <~ lift (getProp r "place") ;;
  time <~ lift (getProp r "time") ;;
  _ <~ insertResult raceId athleteId place (orElse time VNull) pts ;;
  insertFantasyScore athleteId raceId pts.

Definition stored : response :=
  Json 200 (message "Results stored and points calculated").

Definition resultsHandler (reqBody : value) : M response :=
  raceId <~ lift (getProp reqBody "raceId") ;;
  results <~ lift (getProp reqBody "results") ;;
  if negb (truthy raceId) || negb (isArray results)
  then ret (Json 400 (message "raceId + results[] required"))
  else
    _ <~ forEach (match results with VArr xs => xs | _ => [] end)
                 (storeEntry raceId) ;;
    ret stored.

Definition postResults {crypto : Crypto} : request -> store -> store * response :=
  adminRoute resultsHandler.

(** ** GET /api/standings *)

Record standing : Type := mkStanding
  { athleteId : Z; name : sqlval; country : sqlval; totalPoints : Z }.

Definition digitValue (c : ascii) : option Z :=
  let n := Z.of_N (N_of_ascii c) in
  if (48 <=? n) && (n <=? 57) then Some (n - 48) else None.

Fixpoint digitsPrefix (s : string) (acc : Z) : Z :=
  match s with
  | EmptyString => acc
  | String c rest =>
      match digitValue c with
      | Some d => digitsPrefix rest (10 * acc + d)
      | None => acc
      end
  end.

(** The number SUM reads in a cell: an integer is itself; text counts
    for its leading integer (a sign, then digits), so for 0 when it
    does not start with a number.  The only text the server writes as
    points is "0" followed by the text of an inherited member; text
    with leading blanks or a fractional part is not modelled. *)
Definition numericValue (c : sqlval) : Z :=
  match c with
  | SNull => 0
  | SInt z => z
  | SText (String "-" rest) => - digitsPrefix rest 0
  | SText (String "+" rest) => digitsPrefix rest 0
  | SText s => digitsPrefix s 0
  end.

(** [cell = id] in an ON clause: true only for an integer cell. *)
Definition sqlEqInt (c : sqlval) (id : Z) : bool :=
  match c with
  | SInt z => z =? id
  | _ => false
  end.

(** FROM athletes a LEFT JOIN fantasy_scores fs ON fs.athleteId = a.id *)
Definition leftJoinRow (fss : list fantasy_score) (a : athlete)
  : list (athlete * option fantasy_score) :=
  match filter (fun fs => sqlEqInt (fs_athleteId fs) (athlete_id a)) fss with
  | [] => [(a, None)]
  | matches => map (fun fs => (a, Some fs)) matches
  end.

Definition leftJoin (ats : list athlete) (fss : list fantasy_score)
  : list (athlete * option fantasy_score) :=
  flat_map (leftJoinRow fss) ats.

(** GROUP BY a.id *)
Definition groupKeys (joined : list (athlete * option fantasy_score)) : list Z :=
  nodup Z.eq_dec (map (fun j => athlete_id (fst j)) joined).

Definition groupOf (k : Z) (joined : list (athlete * option fantasy_score))
  : list (athlete * option fantasy_score) :=
  filter (fun j => athlete_id (fst j) =? k) joined.

(** SUM(fs.points): NULL when the group has no non-NULL value. *)
Definition nonNull (g : list (athlete * option fantasy_score)) : list Z :=
  flat_map (fun j => match snd j with
                     | Some fs => match fs_points fs with
                                  | SNull => []
                                  | c => [numericValue c]
                                  end
                     | None => []
                     end) g.

Definition sumOf (vals : list Z) : option Z :=
  match vals with
  | [] => None
  | _ => Some (fold_right Z.add 0 vals)
  end.

Definition ifnull (x : option Z) (d : Z) : Z :=
  match x with
  | Some v => v
  | None => d
  end.

Definition selectRow (k : Z) (g : list (athlete * option fantasy_score)) : standing :=
  match g with
  | [] => mkStanding k SNull SNull 0
  | (a, _) :: _ =>
      mkStanding k (athlete_name a) (athlete_country a) (ifnull (sumOf (nonNull g)) 0)
  end.

(** ORDER BY totalPoints DESC.  SQL leaves the order among equal
    totals open; rows that tie keep the order of the athletes table,
    as SQLite returns them. *)
Fixpoint insertDesc (e : standing) (l : list standing) : list standing :=
  match l with
  | [] => [e]
  | x :: rest =>
      if totalPoints x <=? totalPoints e then e :: l
      else x :: insertDesc e rest
  end.

Definition orderByTotalDesc (l : list standing) : list standing :=
  fold_right insertDesc [] l.

Definition standings (st : store) : list standing :=
  let joined := leftJoin (athletes st) (fantasy_scores st) in
  orderByTotalDesc
    (map (fun k => selectRow k (groupOf k joined)) (groupKeys joined)).

(** The total the standings show for an athlete id, if it is listed. *)
Definition totalOf (st : store) (id : Z) : option Z :=
  option_map totalPoints (find (fun e => athleteId e =? id) (standings st)).

(** ** Sequences of calls *)

Inductive call : Type :=
| Register (req : request)
| AddAthlete (req : request)
| AddRace (req : request)
| SubmitResults (req : request)
| ReadStandings.

Definition serve {crypto : Crypto} (c : call) (st : store) : store :=
  match c with
  | Register req => fst (postRegister req st)
  | AddAthlete req => fst (postAthletes req st)
  | AddRace req => fst (postRaces req st)
  | SubmitResults req => fst (postResults req st)
  | ReadStandings => st
  end.

Definition serveAll {crypto : Crypto} (cs : list call) (st : store) : store :=
  fold_left (fun s c => serve c s) cs st.

(** ** Properties the claims speak of *)

(** The primary key of the athletes table: ids are distinct. *)
Definition athleteKeys (st : store) : Prop :=
  NoDup (map athlete_id (athletes st)).

(** A Result row and the FantasyScore row written with it. *)
Definition paired (r : result) (f : fantasy_score) : Prop :=
  result_id r = fs_id f /\
  result_athleteId r = fs_athleteId f /\
  result_raceId r = fs_raceId f /\
  result_points r = fs_points f.

(** The rows of the two tables correspond one to one, in insertion
    order. *)
Definition ledgerPaired (st : store) : Prop :=
  Forall2 paired (results st) (fantasy_scores st).

Definition scoreMatches (r : result) (f : fantasy_score) : bool :=
  sqlval_eqb (fs_athleteId f) (result_athleteId r)
  && sqlval_eqb (fs_raceId f) (result_raceId r)
  && sqlval_eqb (fs_points f) (result_points r).

Definition resultMatches (r r' : result) : bool :=
  sqlval_eqb (result_athleteId r') (result_athleteId r)
  && sqlval_eqb (result_raceId r') (result_raceId r)
  && sqlval_eqb (result_points r') (result_points r).

(** Every Result row has exactly one FantasyScore row with its
    (athleteId, raceId) and points. *)
Definition exactlyOneScore (st : store) : Prop :=
  forall r, In r (results st) ->
    List.length (filter (scoreMatches r) (fantasy_scores st)) = 1%nat.

(** The sum of an athlete's FantasyScore.points. *)
Definition ledgerTotal (fss : list fantasy_score) (id : Z) : Z :=
  fold_right Z.add 0
    (map (fun fs => numericValue (fs_points fs))
         (filter (fun fs => sqlEqInt (fs_athleteId fs) id) fss)).

(** Result rows of a (race, athlete) pair. *)
Definition resultsOfPair (st : store) (raceId athleteId : Z) : list result :=
  filter (fun r => sqlEqInt (result_raceId r) raceId
                   && sqlEqInt (result_athleteId r) athleteId) (results st).

Definition scoresOfPair (st : store) (raceId athleteId : Z) : list fantasy_score :=
  filter (fun f => sqlEqInt (fs_raceId f) raceId
                   && sqlEqInt (fs_athleteId f) athleteId) (fantasy_scores st).

(** The race reference of a body is absent: the property is missing or
    null. *)
Definition raceAbsent (reqBody : value) : Prop :=
  getProp reqBody "raceId" = Ok VUndefined \/ getProp reqBody "raceId" = Ok VNull.

(** The results field of a body is a sequence. *)
Definition resultsIsSequence (reqBody : value) : Prop :=
  exists xs, getProp reqBody "results" = Ok (VArr xs).

Definition isAdminRole (role : sqlval) : bool := sqlval_eqb role (SText "admin").

(** What the scoring function gives a numeric place. *)
Definition placeScore (p : Z) : Z :=
  match assoc (numberToString p) placePoints with
  | Some n => n
  | None => 0
  end.

(** The point values the rule table is documented to give. *)
Definition tableValue (p : Z) : Z :=
  nth (Z.to_nat (p - 1)) [100; 80; 65; 55; 45; 40; 36; 32] 0.

(** A place outside the table: absent, null, or a number not in 1..8. *)
Definition outsideTable (place : value) : Prop :=
  place = VUndefined \/ place = VNull \/
  exists z, place = VNum z /\ (z < 1 \/ 8 < z).

(** A non-negative integer, as a value. *)
Definition isNonNegativeInteger (v : value) : bool :=
  match v with
  | VNum z => 0 <=? z
  | _ => false
  end.

(** The error kinds of the specification, as the status of a response
    of the results endpoint shows them: 401 from [authMiddleware], 403
    from [requireAdmin], 400 from the handler's guard. *)
Inductive errorKind : Type :=
| AuthenticationFailure
| AuthorizationFailure
| ValidationFailure.

Definition errorKindOf (r : response) : option errorKind :=
  match r with
  | Json 401 _ => Some AuthenticationFailure
  | Json 403 _ => Some AuthorizationFailure
  | Json 400 _ => Some ValidationFailure
  | _ => None
  end.

(** The guard of the results handler, on a body. *)
Definition raceFalsy (reqBody : value) : Prop :=
  exists v, getProp reqBody "raceId" = Ok v /\ truthy v = false.

Definition resultsNotArray (reqBody : value) : Prop :=
  exists v, getProp reqBody "results" = Ok v /\ isArray v = false.

(** The request passed [authMiddleware] and [requireAdmin]. *)
Definition cleared {crypto : Crypto} (req : request) : Prop :=
  exists user, authMiddleware req = Next user /\ requireAdmin user = Next tt.

(** The batch is rejected whole with a ValidationFailure exactly when
    the race reference is absent or the results are not a sequence. *)
Definition rejectsIffAbsent {crypto : Crypto} (req : request) (st : store) : Prop :=
  (errorKindOf (snd (postResults req st)) = Some ValidationFailure /\
   fst (postResults req st) = st)
  <-> (raceAbsent (body req) \/ ~ resultsIsSequence (body req)).

(** The batch of the round-trip property, for a race reference [R]. *)
Definition roundTripBatch (R : value) : value :=
  VObj [("raceId", R);
        ("results", VArr [VObj [("athleteId", VNum 1); ("place", VNum 1)];
                          VObj [("athleteId", VNum 2); ("place", VNum 2)]])].

(** The store after one entry was written. *)
Definition withEntry (st : store) (rc ac pc tc sc : sqlval) : store :=
  mkStore (users st) (athletes st) (races st)
    (results st ++ [mkResult (nextId (map result_id (results st))) rc ac pc tc sc])
    (fantasy_scores st
       ++ [mkFantasyScore (nextId (map fs_id (fantasy_scores st))) ac rc sc]).

(** The rows a batch adds: the store grows by appended rows only, one
    per table for each entry processed. *)
Inductive grows : store -> store -> nat -> Prop :=
| grows_refl st : grows st st 0
| grows_step st st' n rc ac pc tc sc :
    grows st st' n -> grows st (withEntry st' rc ac pc tc sc) (S n).

(** The store after a registration inserted a row. *)
Definition withUser (st : store) (e p n : sqlval) : store :=
  mkStore (users st ++ [mkUser (nextId (map user_id (users st))) e p n
                               (SText "user")])
          (athletes st) (races st) (results st) (fantasy_scores st).

(** The standings row of an athlete, and the order of the list. *)
Definition rowOf (fss : list fantasy_score) (a : athlete) : standing :=
  mkStanding (athlete_id a) (athlete_name a) (athlete_country a)
             (ledgerTotal fss (athlete_id a)).

Definition descending : list standing -> Prop :=
  Sorted (fun x y => totalPoints y <= totalPoints x).

(** The users that hold the admin role. *)
Definition adminRows (st : store) : list user :=
  filter (fun u => isAdminRole (user_role u)) (users st).

(** ** A concrete deployment, to run the server on examples *)

Module Fixture.

Definition adminUser : value :=
  VObj [("id", VNum 1); ("email", VStr "admin@sbx.local"); ("role", VStr "admin")].

Definition plainUser : value :=
  VObj [("id", VNum 2); ("email", VStr "a@x.com"); ("role", VStr "user")].

Definition crypto : Crypto :=
  {| bcryptHash := fun s => "$2b$10$" ++ s;
     jwtSign := fun payload =>
       match getProp payload "role" with
       | Ok (VStr "admin") => "admin.jwt"
       | _ => "user.jwt"
       end;
     jwtVerify := fun t =>
       if String.eqb t "admin.jwt" then Some adminUser
       else if String.eqb t "user.jwt" then Some plainUser
       else None |}.

Definition asAdmin (reqBody : value) : request :=
  mkRequest (Some "Bearer admin.jwt") reqBody.

Definition asUser (reqBody : value) : request :=
  mkRequest (Some "Bearer user.jwt") reqBody.

Definition anonymous (reqBody : value) : request := mkRequest None reqBody.

(** Two athletes, one score already in the ledger. *)
Definition season : store :=
  mkStore []
    [mkAthlete 1 (SText "Jane Doe") (SText "USA");
     mkAthlete 2 (SText "Eva Adam") (SText "CZE")]
    [mkRace 1 (SText "Opener") (SText "2025-01-11")]
    [mkResult 1 (SInt 1) (SInt 2) (SInt 3) SNull (SInt 65)]
    [mkFantasyScore 1 (SInt 2) (SInt 1) (SInt 65)].

(** The same (race, athlete) pair submitted twice in one batch. *)
Definition twice : value :=
  VObj [("raceId", VNum 1);
        ("results", VArr [VObj [("athleteId", VNum 1); ("place", VNum 1)];
                          VObj [("athleteId", VNum 1); ("place", VNum 1)]])].

End Fixture.

(** ** The rest of the backend, and the API client *)

(** backend/auth.js, [authenticateToken]: as [authMiddleware], with a
    check of its own for a header that carries no token. *)
Definition authenticateToken {crypto : Crypto} (req : request) : passage value :=
  match authorization req with
  | None => Respond (Json 401 (message "Missing token"))
  | Some authHeader =>
      if String.eqb authHeader "" then Respond (Json 401 (message "Missing token"))
      else
        match nth_error (split " " authHeader) 1 with
        | None => Respond (Json 401 (message "Missing token"))
        | Some token =>
            if String.eqb token "" then Respond (Json 401 (message "Missing token"))
            else
              match jwtVerify token with
              | Some user => Next user
              | None => Respond (Json 401 (message "Invalid token"))
              end
        end
  end.

(** frontend/src/api.js, [setAuth]: the Authorization header the
    client sends from then on. *)
Definition setAuth (token : string) : string := "Bearer " ++ token.

(** The text before the first blank. *)
Fixpoint firstWord (s : string) : string :=
  match s with
  | EmptyString => ""
  | String c rest => if Ascii.eqb c " " then "" else String c (firstWord rest)
  end.

Fixpoint noBlank (s : string) : bool :=
  match s with
  | EmptyString => true
  | String c rest => negb (Ascii.eqb c " ") && noBlank rest
  end.

(** A cell as the driver hands it back to JavaScript. *)
Definition cellValue (c : sqlval) : value :=
  match c with
  | SNull => VNull
  | SInt z => VNum z
  | SText s => VStr s
  end.

(** [column = ?] in a WHERE clause: never true on NULL. *)
Definition sqlEq (a b : sqlval) : bool :=
  match a, b with
  | SInt x, SInt y => x =? y
  | SText x, SText y => String.eqb x y
  | _, _ => false
  end.

(** [bcrypt.compare(data, hash)] on two strings. *)
Class PasswordCheck : Type :=
  { bcryptCompare : string -> string -> bool }.

(** SELECT * FROM users WHERE email = ?, first row ([db.get]); the
    TEXT affinity of the column is applied to the bound value before
    the comparison. *)
Definition selectUserByEmail (email : value) : M (option user) :=
  fun st =>
    match bindParameter email with
    | Throw x => (st, Throw x)
    | Ok e =>
        (st, Ok (find (fun u => sqlEq (user_email u) (textAffinity e)) (users st)))
    end.

Definition invalidCredentials : response :=
  Json 401 (message "Invalid credentials").

(** POST /api/auth/login *)
Definition loginHandler {crypto : Crypto} {check : PasswordCheck}
           (reqBody : value) : M response :=
  email <~ lift (getProp reqBody "email") ;;
  password <~ lift (getProp reqBody "password") ;;
  found <~ selectUserByEmail email ;;
  match found with
  | None => ret invalidCredentials
  | Some row =>
      ok <~ lift (match password, user_password row with
                  | VStr s, SText h => Ok (bcryptCompare s h)
                  | _, _ => Throw (BcryptError "data and hash must be strings")
                  end) ;;
      if negb ok then ret invalidCredentials
      else
        let token := generateToken
          (VObj [("id", VNum (user_id row));
                 ("email", cellValue (user_email row));
                 ("role", cellValue (user_role row))]) in
        ret (Json 200 (VObj [("token", VStr token);
                             ("role", cellValue (user_role row));
                             ("name", cellValue (user_name row))]))
  end.

Definition postLogin {crypto : Crypto} {check : PasswordCheck}
           (req : request) (st : store) : store * response :=
  runHandler (loginHandler (body req)) st.

(** GET /api/athletes: SELECT * FROM athletes *)
Definition athleteJson (a : athlete) : value :=
  VObj [("id", VNum (athlete_id a));
        ("name", cellValue (athlete_name a));
        ("country", cellValue (athlete_country a))].

Definition getAthletes (st : store) : response :=
  Json 200 (VArr (map athleteJson (athletes st))).

(** How SQLite orders two cells: NULL first, then numbers, then text
    byte by byte. *)
Definition sqlCompare (a b : sqlval) : comparison :=
  match a, b with
  | SNull, SNull => Eq
  | SNull, _ => Lt
  | _, SNull => Gt
  | SInt x, SInt y => x ?= y
  | SInt _, SText _ => Lt
  | SText _, SInt _ => Gt
  | SText x, SText y => String.compare x y
  end.

(** GET /api/races: SELECT * FROM races ORDER BY date DESC; races
    with equal dates keep the order of the table. *)
Fixpoint insertByDateDesc (r : race) (l : list race) : list race :=
  match l with
  | [] => [r]
  | x :: rest =>
      match sqlCompare (race_date x) (race_date r) with
      | Gt => x :: insertByDateDesc r rest
      | _ => r :: l
      end
  end.

Definition racesByDateDesc (st : store) : list race :=
  fold_right insertByDateDesc [] (races st).

Definition raceJson (r : race) : value :=
  VObj [("id", VNum (race_id r));
        ("name", cellValue (race_name r));
        ("date", cellValue (race_date r))].

Definition getRaces (st : store) : response :=
  Json 200 (VArr (map raceJson (racesByDateDesc st))).

(** The body of a results request. *)
Definition resultsBody (raceId : value) (entries : list value) : value :=
  VObj [("raceId", raceId); ("results", VArr entries)].

(** The values the points rule table holds, and 0. *)
Definition scoreValues : list Z := [0; 100; 80; 65; 55; 45; 40; 36; 32].

(** What one entry of a batch binds for its two rows: the cells for
    raceId, athleteId, place, time and points, or the exception it
    throws. *)
Definition entryCells (raceId r : value)
  : outcome (sqlval * sqlval * sqlval * sqlval * sqlval) :=
  pts <- calculatePointsForResult r ;;
  athleteId <- getProp r "athleteId" ;;
  place <- getProp r "place" ;;
  time <- getProp r "time" ;;
  rc <- bindParameter raceId ;;
  ac <- bindParameter athleteId ;;
  pc <- bindParameter place ;;
  tc <- bindParameter (orElse time VNull) ;;
  sc <- bindParameter pts ;;
  Ok (rc, ac, pc, tc, sc).

(** The points an entry adds to the total of athlete [id]. *)
Definition entryPoints (raceId : value) (id : Z) (r : value) : Z :=
  match entryCells raceId r with
  | Ok (_, ac, _, _, sc) => if sqlEqInt ac id then numericValue sc else 0
  | Throw _ => 0
  end.

(** The primary keys and the UNIQUE e-mail column of the schema; every
    user has an e-mail. *)
Definition schemaKeys (st : store) : Prop :=
  NoDup (map user_id (users st)) /\
  NoDup (map athlete_id (athletes st)) /\
  NoDup (map race_id (races st)) /\
  NoDup (map result_id (results st)) /\
  NoDup (map fs_id (fantasy_scores st)) /\
  NoDup (map user_email (users st)) /\
  Forall (fun u => user_email u <> SNull) (users st).

(** A second deployment, whose tokens read back as what was signed
    for the two users it knows. *)
Module Desk.

Definition check : PasswordCheck :=
  {| bcryptCompare := fun s h => String.eqb h ("$2b$10$" ++ s) |}.

Definition janePayload : value :=
  VObj [("id", VNum 2); ("email", VStr "a@x.com"); ("role", VStr "user")].

Definition adminPayload : value :=
  VObj [("id", VNum 1); ("email", VStr "admin@sbx.local"); ("role", VStr "admin")].

Definition crypto : Crypto :=
  {| bcryptHash := fun s => "$2b$10$" ++ s;
     jwtSign := fun payload =>
       match getProp payload "role" with
       | Ok (VStr "admin") => "admin.jwt"
       | _ => "user.jwt"
       end;
     jwtVerify := fun t =>
       if String.eqb t "admin.jwt" then Some adminPayload
       else if String.eqb t "user.jwt" then Some janePayload
       else None |}.

End Desk.

(** ** The results endpoint, statement by statement

    [stmt.run] and [db.run] bind their parameters and queue an INSERT;
    the handler calls [res.json] when the [forEach] is over, before any
    queued INSERT has run.  So a request is answered with the store as
    it was, and leaves a queue of statements to run. *)

Inductive statement : Type :=
| InsertResult (raceId athleteId place time points : sqlval)
| InsertScore (athleteId raceId points : sqlval).

Definition execute (s : statement) (st : store) : store :=
  match s with
  | InsertResult rc ac pc tc sc =>
      mkStore (users st) (athletes st) (races st)
        (results st ++ [mkResult (nextId (map result_id (results st))) rc ac pc tc sc])
        (fantasy_scores st)
  | InsertScore ac rc sc =>
      mkStore (users st) (athletes st) (races st) (results st)
        (fantasy_scores st
           ++ [mkFantasyScore (nextId (map fs_id (fantasy_scores st))) ac rc sc])
  end.

Definition executeAll (q : list statement) (st : store) : store :=
  fold_left (fun s x => execute x s) q st.

(** What the [forEach] callback queues for one entry. *)
Definition queueEntry (raceId r : value) : outcome (list statement) :=
  pts <- calculatePointsForResult r ;;
  athleteId <- getProp r "athleteId" ;;
  place <- getProp r "place" ;;
  time <- getProp r "time" ;;
  rc <- bindParameter raceId ;;
  ac <- bindParameter athleteId ;;
  pc <- bindParameter place ;;
  tc <- bindParameter (orElse time VNull) ;;
  sc <- bindParameter pts ;;
  Ok [InsertResult rc ac pc tc sc; InsertScore ac rc sc].

(** What the whole [forEach] queues, up to the entry that throws. *)
Fixpoint queueAll (raceId : value) (xs : list value)
  : list statement * outcome unit :=
  match xs with
  | [] => ([], Ok tt)
  | x :: rest =>
      match queueEntry raceId x with
      | Throw e => ([], Throw e)
      | Ok q => let (q', o) := queueAll raceId rest in ((q ++ q')%list, o)
      end
  end.

(** The handler of POST /api/results: the statements it has queued
    when it answers, and the answer. *)
Definition resultsQueue (reqBody : value) : list statement * response :=
  match getProp reqBody "raceId" with
  | Throw e => ([], Uncaught e)
  | Ok raceId =>
      match getProp reqBody "results" with
      | Throw e => ([], Uncaught e)
      | Ok results =>
          if negb (truthy raceId) || negb (isArray results)
          then ([], Json 400 (message "raceId + results[] required"))
          else
            match queueAll raceId (match results with VArr xs => xs | _ => [] end) with
            | (q, Ok _) => (q, stored)
            | (q, Throw e) => (q, Uncaught e)
            end
      end
  end.

Definition submitResults {crypto : Crypto} (req : request)
  : list statement * response :=
  match authMiddleware req with
  | Respond r => ([], r)
  | Next user =>
      match requireAdmin user with
      | Respond r => ([], r)
      | Next _ => resultsQueue (body req)
      end
  end.

(** A statement inserts a row with the (athleteId, raceId, points) of
    [key]. *)
Definition insertsResultLike (key : result) (s : statement) : bool :=
  match s with
  | InsertResult rc ac _ _ sc =>
      sqlval_eqb ac (result_athleteId key) && sqlval_eqb rc (result_raceId key)
      && sqlval_eqb sc (result_points key)
  | InsertScore _ _ _ => false
  end.

Definition insertsScoreLike (key : result) (s : statement) : bool :=
  match s with
  | InsertScore ac rc sc =>
      sqlval_eqb ac (result_athleteId key) && sqlval_eqb rc (result_raceId key)
      && sqlval_eqb sc (result_points key)
  | InsertResult _ _ _ _ _ => false
  end.

(** For every (athleteId, raceId, points), as many FantasyScore rows
    carry it as Result rows. *)
Definition balanced (st : store) : Prop :=
  forall key : result,
    List.length (filter (resultMatches key) (results st))
    = List.length (filter (scoreMatches key) (fantasy_scores st)).

(** The sum of the points of the FantasyScore rows of athlete [id], in
    the words of the specification: a row counts when its athleteId is
    [id], and then for its points. *)
Inductive ledgerSum (id : Z) : list fantasy_score -> Z -> Prop :=
| ledgerSum_nil : ledgerSum id [] 0
| ledgerSum_counts fs rest p t :
    fs_athleteId fs = SInt id -> fs_points fs = SInt p ->
    ledgerSum id rest t -> ledgerSum id (fs :: rest) (p + t)
| ledgerSum_skips fs rest t :
    fs_athleteId fs <> SInt id ->
    ledgerSum id rest t -> ledgerSum id (fs :: rest) t.

(** A place that converts to a property key without running code of
    the body: anything but an array or an object. *)
Definition plainPlace (v : value) : bool :=
  match v with
  | VArr _ | VObj _ => false
  | _ => true
  end.

(** A third deployment: a verified token reads back as the payload
    that was signed plus the times [iat] and [exp] that signing adds. *)
Module Clock.

Definition stamped (payload : value) : value :=
  match payload with
  | VObj props =>
      VObj (props ++ [("iat", VNum 1762000000); ("exp", VNum 1762604800)])
  | v => v
  end.

Definition crypto : Crypto :=
  {| bcryptHash := fun s => "$2b$10$" ++ s;
     jwtSign := fun payload =>
       match getProp payload "role" with
       | Ok (VStr "admin") => "admin.jwt"
       | _ => "user.jwt"
       end;
     jwtVerify := fun t =>
       if String.eqb t "admin.jwt" then Some (stamped Desk.adminPayload)
       else if String.eqb t "user.jwt" then Some (stamped Desk.janePayload)
       else None |}.

End Clock.

(** * Proofs *)

(** ** The scoring function *)

Lemma parse_numberToString (z : Z) :
  NilZero.int_of_string (numberToString z) = Some (Z.to_int z).
Proof.
  unfold numberToString.
  apply NilZero.isi; destruct z as [|p|p]; simpl; try discriminate;
    intros H; injection H as H;
    exact (DecimalPos.Unsigned.to_uint_nonnil p H).
Qed.

Lemma numberToString_inj (a b : Z) :
  numberToString a = numberToString b -> a = b.
Proof.
  intros H.
  pose proof (parse_numberToString a) as Pa.
  rewrite H, parse_numberToString in Pa.
  injection Pa as Pa.
  symmetry; now apply DecimalZ.to_int_inj.
Qed.

Lemma numberToString_not_a_name (z : Z) (k : string) :
  NilZero.int_of_string k = None -> numberToString z <> k.
Proof.
  intros Hk Heq.
  pose proof (parse_numberToString z) as P.
  rewrite Heq, Hk in P; discriminate.
Qed.

Lemma assoc_none {A : Type} (key : string) (l : list (string * A)) :
  (forall k v, In (k, v) l -> key <> k) -> assoc key l = None.
Proof.
  induction l as [|[k v] l IH]; simpl; intros H; [reflexivity|].
  destruct (String.eqb_spec key k) as [->|_].
  - exfalso; apply (H k v); auto.
  - apply IH; intros k' v' Hin; apply (H k' v'); auto.
Qed.

(** A number outside 1..8 names no property of [placePoints], own or
    inherited. *)
Lemma getMember_outside (z : Z) :
  z < 1 \/ 8 < z -> getMember (numberToString z) = MUndefined.
Proof.
  intros Hz. unfold getMember.
  rewrite assoc_none.
  - rewrite assoc_none; [reflexivity|].
    intros k v Hin. apply numberToString_not_a_name.
    simpl in Hin.
    repeat (destruct Hin as [Hin|Hin];
            [injection Hin as <- _; reflexivity|]).
    contradiction.
  - intros k v Hin Heq. simpl in Hin.
    repeat (destruct Hin as [Hin|Hin];
            [injection Hin as <- _;
             match type of Heq with
             | _ = ?lit =>
                 let n := eval vm_compute in
                   (match NilZero.int_of_string lit with
                    | Some d => Z.of_int d
                    | None => 0
                    end) in
                 apply (numberToString_inj z n) in Heq; lia
             end|]).
    contradiction.
Qed.

Lemma getMember_inside (z : Z) :
  1 <= z <= 8 -> getMember (numberToString z) = MNumber (tableValue z).
Proof.
  intros Hz.
  assert (z = 1 \/ z = 2 \/ z = 3 \/ z = 4 \/ z = 5 \/ z = 6 \/ z = 7 \/ z = 8)
    as Hc by lia.
  repeat (destruct Hc as [->|Hc]; [reflexivity|]).
  subst; reflexivity.
Qed.

Lemma calculate_with_member (result place : value) (key : string) :
  getProp result "place" = Ok place ->
  toPropertyKey place = Ok key ->
  calculatePointsForResult result =
    Ok (if memberTruthy (getMember key)
        then plusAssign 0 (getMember key) else VNum 0).
Proof.
  intros Hp Hk.
  unfold calculatePointsForResult, placePointsAt.
  rewrite Hp; simpl. rewrite Hk; simpl.
  destruct (memberTruthy (getMember key)); reflexivity.
Qed.

Lemma placeScore_inside (p : Z) : 1 <= p <= 8 -> placeScore p = tableValue p.
Proof.
  intros Hp. pose proof (getMember_inside p Hp) as H.
  unfold getMember, placeScore in *.
  destruct (assoc (numberToString p) placePoints) as [n|].
  - now injection H.
  - destruct (assoc (numberToString p) objectPrototype); discriminate.
Qed.

Lemma placeScore_outside (p : Z) : p < 1 \/ 8 < p -> placeScore p = 0.
Proof.
  intros Hp. pose proof (getMember_outside p Hp) as H.
  unfold getMember, placeScore in *.
  destruct (assoc (numberToString p) placePoints) as [n|];
    [discriminate|reflexivity].
Qed.

(** On a numeric place the scoring function is [placeScore]. *)
Lemma calculate_number (result : value) (p : Z) :
  getProp result "place" = Ok (VNum p) ->
  calculatePointsForResult result = Ok (VNum (placeScore p)).
Proof.
  intros Hp.
  rewrite (calculate_with_member result (VNum p) (numberToString p) Hp eq_refl).
  destruct (Z_le_dec 1 p) as [H1|H1]; [destruct (Z_le_dec p 8) as [H8|H8]|].
  - rewrite placeScore_inside, getMember_inside by lia.
    assert (p = 1 \/ p = 2 \/ p = 3 \/ p = 4 \/ p = 5 \/ p = 6 \/ p = 7 \/ p = 8)
      as Hc by lia.
    repeat (destruct Hc as [->|Hc]; [reflexivity|]).
    subst; reflexivity.
  - rewrite placeScore_outside, getMember_outside by lia. reflexivity.
  - rewrite placeScore_outside, getMember_outside by lia. reflexivity.
Qed.

Lemma tableValue_antitone (p q : Z) :
  1 <= p -> p <= q -> q <= 8 -> tableValue q <= tableValue p.
Proof.
  intros H1 Hpq H8.
  assert (p = 1 \/ p = 2 \/ p = 3 \/ p = 4 \/ p = 5 \/ p = 6 \/ p = 7 \/ p = 8)
    as Hp by lia.
  assert (q = 1 \/ q = 2 \/ q = 3 \/ q = 4 \/ q = 5 \/ q = 6 \/ q = 7 \/ q = 8)
    as Hq by lia.
  repeat (destruct Hp as [Hp|Hp]); subst p;
    repeat (destruct Hq as [Hq|Hq]); subst q;
    try lia; vm_compute; discriminate.
Qed.

(** C1. For a result whose place is p in 1..8 the scoring function
    returns the table's value for p (100, 80, 65, 55, 45, 40, 36, 32),
    and a result with a later place q in the range never scores more. *)
Theorem C1_scoring_table (result : value) (p : Z) :
  1 <= p <= 8 ->
  getProp result "place" = Ok (VNum p) ->
  calculatePointsForResult result = Ok (VNum (tableValue p)) /\
  forall (result' : value) (q : Z),
    p <= q <= 8 ->
    getProp result' "place" = Ok (VNum q) ->
    calculatePointsForResult result' = Ok (VNum (tableValue q)) /\
    tableValue q <= tableValue p.
Proof.
  intros Hp Hplace. split.
  - rewrite (calculate_number _ _ Hplace). now rewrite placeScore_inside.
  - intros result' q Hq Hplace'. split.
    + rewrite (calculate_number _ _ Hplace').
      rewrite placeScore_inside; [reflexivity|lia].
    + apply tableValue_antitone; lia.
Qed.

Lemma C1_scoring_table_witness :
  calculatePointsForResult (VObj [("athleteId", VNum 7); ("place", VNum 3)])
    = Ok (VNum 65) /\
  forall (result' : value) (q : Z),
    3 <= q <= 8 ->
    getProp result' "place" = Ok (VNum q) ->
    calculatePointsForResult result' = Ok (VNum (tableValue q)) /\
    tableValue q <= 65.
Proof.
  apply (C1_scoring_table (VObj [("athleteId", VNum 7); ("place", VNum 3)]) 3).
  - lia.
  - reflexivity.
Defined.

(** C2. A result whose place is absent, null, or a number outside 1..8
    (zero, negative, above 8) scores 0 and nothing is thrown. *)
Theorem C2_scoring_outside_table (result place : value) :
  getProp result "place" = Ok place ->
  outsideTable place ->
  calculatePointsForResult result = Ok (VNum 0).
Proof.
  intros Hplace [->|[->|[z [-> Hz]]]].
  - now rewrite (calculate_with_member _ _ "undefined" Hplace eq_refl).
  - now rewrite (calculate_with_member _ _ "null" Hplace eq_refl).
  - rewrite (calculate_number _ _ Hplace). now rewrite placeScore_outside.
Qed.

Lemma C2_scoring_outside_table_witness :
  calculatePointsForResult (VObj [("athleteId", VNum 4); ("place", VNum 9)])
    = Ok (VNum 0).
Proof.
  apply (C2_scoring_outside_table
           (VObj [("athleteId", VNum 4); ("place", VNum 9)]) (VNum 9)).
  - reflexivity.
  - right; right; exists 9; split; [reflexivity | lia].
Defined.

(** C3. The scoring function does not return a non-negative integer on
    every record: a place that names a member of [Object.prototype]
    passes the guard and is concatenated to the running total, so the
    record [{athleteId: 1, place: "constructor"}] scores a string; and
    a [null] entry makes the property read throw. *)
Theorem C3_scoring_inherited_member :
  calculatePointsForResult
    (VObj [("athleteId", VNum 1); ("place", VStr "constructor")])
    = Ok (VStr "0function Object() { [native code] }") /\
  isNonNegativeInteger (VStr "0function Object() { [native code] }") = false /\
  calculatePointsForResult VNull
    = Throw (TypeError "Cannot read properties of null").
Proof.
  repeat split.
Qed.

(** ** Ingestion: what one entry and one batch write *)

Lemma nextId_above (ids : list Z) (x : Z) : In x ids -> x < nextId ids.
Proof.
  unfold nextId. induction ids as [|y ids IH]; cbn [fold_right In];
    [contradiction|].
  intros [->|H]; [lia|]. specialize (IH H). lia.
Qed.

Lemma paired_ids (rs : list result) (fs : list fantasy_score) :
  Forall2 paired rs fs -> map result_id rs = map fs_id fs.
Proof.
  induction 1 as [|r f rs fs [Hid _] _ IH]; simpl; [reflexivity|].
  now rewrite Hid, IH.
Qed.

(** An entry either throws before anything is written or writes one
    row to each table. *)
Lemma storeEntry_cases (raceId r : value) (st : store) :
  (exists e, storeEntry raceId r st = (st, Throw e)) \/
  (exists rc ac pc tc sc,
      storeEntry raceId r st = (withEntry st rc ac pc tc sc, Ok tt)).
Proof.
  unfold storeEntry, bindM, lift.
  destruct (calculatePointsForResult r) as [pts|e]; [|left; eauto].
  destruct (getProp r "athleteId") as [a|e]; [|left; eauto].
  destruct (getProp r "place") as [p|e]; [|left; eauto].
  destruct (getProp r "time") as [t|e]; [|left; eauto].
  unfold insertResult, insertFantasyScore.
  destruct (bindParameter raceId) as [rc|e] eqn:Hr; simpl; [|left; eauto].
  destruct (bindParameter a) as [ac|e] eqn:Ha; simpl; [|left; eauto].
  destruct (bindParameter p) as [pc|e] eqn:Hp; simpl; [|left; eauto].
  destruct (bindParameter (orElse t VNull)) as [tc|e] eqn:Ht; simpl;
    [|left; eauto].
  destruct (bindParameter pts) as [sc|e] eqn:Hs; simpl; [|left; eauto].
  right; exists rc, ac, pc, tc, sc; reflexivity.
Qed.

(** The same, given what the entry evaluates to. *)
Lemma storeEntry_ok (raceId r pts a p t : value) (rc ac pc tc sc : sqlval)
      (st : store) :
  calculatePointsForResult r = Ok pts ->
  getProp r "athleteId" = Ok a ->
  getProp r "place" = Ok p ->
  getProp r "time" = Ok t ->
  bindParameter raceId = Ok rc ->
  bindParameter a = Ok ac ->
  bindParameter p = Ok pc ->
  bindParameter (orElse t VNull) = Ok tc ->
  bindParameter pts = Ok sc ->
  storeEntry raceId r st = (withEntry st rc ac pc tc sc, Ok tt).
Proof.
  intros Hc Ha Hp Ht Br Ba Bp Bt Bs.
  unfold storeEntry, bindM, lift, insertResult, insertFantasyScore.
  rewrite Hc, Ha, Hp, Ht; simpl.
  rewrite Br; simpl. rewrite Ba; simpl. rewrite Bp; simpl.
  rewrite Bt; simpl. rewrite Bs; reflexivity.
Qed.

Lemma withEntry_paired (st : store) (rc ac pc tc sc : sqlval) :
  ledgerPaired st -> ledgerPaired (withEntry st rc ac pc tc sc).
Proof.
  unfold ledgerPaired, withEntry; simpl; intros H.
  apply Forall2_app; [exact H|].
  constructor; [|constructor].
  unfold paired; simpl. rewrite (paired_ids _ _ H). auto.
Qed.

Lemma grows_first (st st' : store) (n : nat) rc ac pc tc sc :
  grows (withEntry st rc ac pc tc sc) st' n -> grows st st' (S n).
Proof.
  intros H. remember (withEntry st rc ac pc tc sc) as st1 eqn:E.
  induction H as [|s s' n' ? ? ? ? ? H IH]; subst.
  - apply grows_step, grows_refl.
  - apply grows_step. now apply IH.
Qed.

Lemma grows_paired (st st' : store) (n : nat) :
  grows st st' n -> ledgerPaired st -> ledgerPaired st'.
Proof.
  induction 1; intros Hp; [exact Hp|]. apply withEntry_paired; auto.
Qed.

Lemma grows_frame (st st' : store) (n : nat) :
  grows st st' n ->
  users st' = users st /\ athletes st' = athletes st /\ races st' = races st /\
  exists newR newF,
    results st' = (results st ++ newR)%list /\
    fantasy_scores st' = (fantasy_scores st ++ newF)%list /\
    List.length newR = n /\ List.length newF = n.
Proof.
  induction 1 as [st|st st' n rc ac pc tc sc H IH].
  - repeat split; exists [], []; now rewrite !app_nil_r.
  - destruct IH as (Hu & Ha & Hr & newR & newF & ER & EF & LR & LF).
    simpl; repeat split; try assumption.
    eexists (newR ++ [_])%list, (newF ++ [_])%list.
    rewrite ER, EF, <- !app_assoc.
    repeat split; rewrite length_app; simpl; lia.
Qed.

Lemma forEach_storeEntry (raceId : value) (xs : list value) :
  forall st st' o,
    forEach xs (storeEntry raceId) st = (st', o) ->
    exists n, grows st st' n /\ (o = Ok tt -> n = List.length xs).
Proof.
  induction xs as [|x xs IH]; intros st st' o H; simpl in H.
  - injection H as <- <-. exists 0%nat; split; [constructor|reflexivity].
  - unfold bindM in H.
    destruct (storeEntry_cases raceId x st)
      as [[e He]|(rc & ac & pc & tc & sc & He)]; rewrite He in H.
    + injection H as <- <-. exists 0%nat; split; [constructor|discriminate].
    + destruct (IH _ _ _ H) as (n & Hg & Hn).
      exists (S n); split; [now apply grows_first in Hg|].
      intros Ho; simpl; now rewrite Hn.
Qed.

(** The handler answers 400 exactly on the guard and then writes
    nothing; otherwise the store grows by the rows of the entries
    processed. *)
Lemma resultsHandler_cases (reqBody : value) (st : store) :
  let (st', resp) := runHandler (resultsHandler reqBody) st in
  (exists e, resp = Uncaught e /\
             exists n, grows st st' n) \/
  (resp = Json 400 (message "raceId + results[] required") /\ st' = st /\
   exists raceId results,
     getProp reqBody "raceId" = Ok raceId /\
     getProp reqBody "results" = Ok results /\
     (truthy raceId = false \/ isArray results = false)) \/
  (resp = stored /\
   exists raceId xs,
     getProp reqBody "raceId" = Ok raceId /\ truthy raceId = true /\
     getProp reqBody "results" = Ok (VArr xs) /\
     grows st st' (List.length xs)).
Proof.
  unfold runHandler, resultsHandler, bindM, lift.
  destruct (getProp reqBody "raceId") as [raceId|e];
    [|left; exists e; split; [reflexivity|exists 0%nat; constructor]].
  destruct (getProp reqBody "results") as [rs|e];
    [|left; exists e; split; [reflexivity|exists 0%nat; constructor]].
  destruct (truthy raceId) eqn:Ht; simpl.
  - destruct rs as [| | | | |xs|]; simpl;
      try (right; left; repeat split; exists raceId; eexists;
           repeat split; auto; fail).
    destruct (forEach xs (storeEntry raceId) st) as [st' [[]|e]] eqn:Hf;
      destruct (forEach_storeEntry _ _ _ _ _ Hf) as (n & Hg & Hn).
    + right; right; split; [reflexivity|].
      exists raceId, xs. rewrite <- (Hn eq_refl). auto.
    + left; exists e; split; [reflexivity|]. now exists n.
  - right; left; repeat split. exists raceId, rs; auto.
Qed.

Lemma adminRoute_cases {crypto : Crypto} (h : value -> M response)
      (req : request) (st : store) :
  (exists r, adminRoute h req st = (st, r) /\
     (authMiddleware req = Respond r \/
      exists user, authMiddleware req = Next user /\
                   requireAdmin user = Respond r)) \/
  (adminRoute h req st = runHandler (h (body req)) st /\
   exists user, authMiddleware req = Next user /\ requireAdmin user = Next tt).
Proof.
  unfold adminRoute.
  destruct (authMiddleware req) as [user|r] eqn:Ha; [|left; exists r; auto].
  destruct (requireAdmin user) as [[]|r] eqn:Hr.
  - right; split; [reflexivity|]. exists user; auto.
  - left; exists r; split; [reflexivity|]. right; exists user; auto.
Qed.

Lemma grows_rows (st st' : store) (n : nat) :
  grows st st' n -> ledgerPaired st ->
  exists newR newF,
    results st' = (results st ++ newR)%list /\
    fantasy_scores st' = (fantasy_scores st ++ newF)%list /\
    List.length newR = n /\ Forall2 paired newR newF.
Proof.
  induction 1 as [st|st st' n rc ac pc tc sc H IH]; intros Hp.
  - exists [], []; rewrite !app_nil_r; repeat split; constructor.
  - destruct (IH Hp) as (newR & newF & ER & EF & LR & HF).
    pose proof (paired_ids _ _ (grows_paired _ _ _ H Hp)) as Hid.
    exists (newR ++ [mkResult (nextId (map result_id (results st')))
                              rc ac pc tc sc])%list,
           (newF ++ [mkFantasyScore (nextId (map fs_id (fantasy_scores st')))
                                    ac rc sc])%list.
    split; [|split; [|split]].
    + simpl. rewrite ER at 1. now rewrite app_assoc.
    + simpl. rewrite EF at 1. now rewrite app_assoc.
    + rewrite length_app; simpl; lia.
    + apply Forall2_app; [exact HF|].
      constructor; [|constructor].
      unfold paired; simpl. rewrite Hid. auto.
Qed.

(** ** The guard of the results endpoint *)

Lemma getProp_throws (v : value) (a b : string) (e : exn) :
  getProp v a = Throw e -> getProp v b = Throw e.
Proof.
  destruct v; simpl; try discriminate; try (intros H; exact H).
  destruct (assoc a props); discriminate.
Qed.

Lemma forEach_never_rejects (raceId : value) (xs : list value) (st : store) :
  errorKindOf (snd (runHandler (_ <~ forEach xs (storeEntry raceId) ;; ret stored) st))
    = None.
Proof.
  unfold runHandler, bindM.
  destruct (forEach xs (storeEntry raceId) st) as [st' [[]|e]]; reflexivity.
Qed.

Lemma resultsHandler_guard (reqBody : value) (st : store) :
  (errorKindOf (snd (runHandler (resultsHandler reqBody) st))
     = Some ValidationFailure
   <-> raceFalsy reqBody \/ resultsNotArray reqBody) /\
  (errorKindOf (snd (runHandler (resultsHandler reqBody) st))
     = Some ValidationFailure ->
   runHandler (resultsHandler reqBody) st
     = (st, Json 400 (message "raceId + results[] required"))).
Proof.
  unfold raceFalsy, resultsNotArray.
  destruct (getProp reqBody "raceId") as [raceId|e] eqn:E1.
  - destruct (getProp reqBody "results") as [rs|e] eqn:E2.
    + destruct (negb (truthy raceId) || negb (isArray rs)) eqn:G.
      * assert (runHandler (resultsHandler reqBody) st
                = (st, Json 400 (message "raceId + results[] required"))) as R.
        { unfold runHandler, resultsHandler, bindM, lift.
          rewrite E1, E2, G. reflexivity. }
        rewrite R; simpl. split; [split; [intros _|reflexivity]|reflexivity].
        apply orb_true_iff in G as [G|G]; apply negb_true_iff in G;
          [left; exists raceId|right; exists rs]; auto.
      * apply orb_false_iff in G as [G1 G2].
        apply negb_false_iff in G1, G2.
        assert (errorKindOf (snd (runHandler (resultsHandler reqBody) st)) = None)
          as R.
        { destruct rs; try discriminate.
          pose proof (forEach_never_rejects raceId xs st) as F.
          unfold runHandler, resultsHandler, bindM, lift in *.
          rewrite E1, E2, G1; simpl. exact F. }
        rewrite R. split; [split|]; try discriminate.
        intros [[v [Hv Hf]]|[v [Hv Hf]]]; injection Hv as <-; congruence.
    + apply (getProp_throws _ _ "raceId") in E2. congruence.
  - assert (runHandler (resultsHandler reqBody) st = (st, Uncaught e)) as R.
    { unfold runHandler, resultsHandler, bindM, lift. now rewrite E1. }
    rewrite R; simpl. split; [split|]; try discriminate.
    apply (getProp_throws _ _ "results") in E1.
    intros [[v [Hv _]]|[v [Hv _]]]; congruence.
Qed.

Lemma cleared_route {crypto : Crypto} (h : value -> M response)
      (req : request) (st : store) :
  cleared req -> adminRoute h req st = runHandler (h (body req)) st.
Proof.
  intros (user & Ha & Hr). unfold adminRoute. now rewrite Ha, Hr.
Qed.

(** C4 (amended). For a request that passed the token and admin checks,
    the results endpoint answers with a ValidationFailure exactly when
    the race reference is falsy (absent, null, 0, false or the empty
    string) or the results field is not an array; whenever it answers
    so, and for every request at all that fails this check, the store
    is left as it was. *)
Theorem C4_validation_guard {crypto : Crypto} (req : request) (st : store) :
  cleared req ->
  (errorKindOf (snd (postResults req st)) = Some ValidationFailure
   <-> raceFalsy (body req) \/ resultsNotArray (body req)) /\
  (errorKindOf (snd (postResults req st)) = Some ValidationFailure ->
   postResults req st = (st, Json 400 (message "raceId + results[] required"))) /\
  (forall req' : request,
      raceFalsy (body req') \/ resultsNotArray (body req') ->
      fst (postResults req' st) = st).
Proof.
  intros Hadm. unfold postResults.
  rewrite (cleared_route _ _ _ Hadm).
  destruct (resultsHandler_guard (body req) st) as [Hiff Hsame].
  split; [exact Hiff|split; [exact Hsame|]].
  intros req' Hfail.
  destruct (adminRoute_cases resultsHandler req' st)
    as [(r & -> & _)|(-> & _)]; [reflexivity|].
  destruct (resultsHandler_guard (body req') st) as [Hiff' Hsame'].
  now rewrite (Hsame' (proj2 Hiff' Hfail)).
Qed.

Lemma C4_validation_guard_witness :
  (errorKindOf (snd (@postResults Fixture.crypto
                       (Fixture.asAdmin (VObj [("results", VArr [])]))
                       Fixture.season))
     = Some ValidationFailure
   <-> raceFalsy (VObj [("results", VArr [])])
       \/ resultsNotArray (VObj [("results", VArr [])])) /\
  (errorKindOf (snd (@postResults Fixture.crypto
                       (Fixture.asAdmin (VObj [("results", VArr [])]))
                       Fixture.season))
     = Some ValidationFailure ->
   @postResults Fixture.crypto (Fixture.asAdmin (VObj [("results", VArr [])]))
                Fixture.season
     = (Fixture.season, Json 400 (message "raceId + results[] required"))) /\
  (forall req' : request,
      raceFalsy (body req') \/ resultsNotArray (body req') ->
      fst (@postResults Fixture.crypto req' Fixture.season) = Fixture.season).
Proof.
  apply (@C4_validation_guard Fixture.crypto
           (Fixture.asAdmin (VObj [("results", VArr [])])) Fixture.season).
  exists Fixture.adminUser. split; reflexivity.
Defined.

(** C4 as stated fails: a batch whose race reference is present but 0,
    with a results sequence, is rejected whole with a
    ValidationFailure. *)
Lemma C4_zero_race_rejected :
  ~ @rejectsIffAbsent Fixture.crypto
      (Fixture.asAdmin (VObj [("raceId", VNum 0); ("results", VArr [])]))
      emptyStore.
Proof.
  unfold rejectsIffAbsent. intros [Hrej _].
  destruct (Hrej (conj eq_refl eq_refl)) as [[H|H]|H].
  - discriminate H.
  - discriminate H.
  - apply H. exists []. reflexivity.
Qed.

(** ** Token and role checks *)

Lemma authMiddleware_answers {crypto : Crypto} (req : request) (r : response) :
  authMiddleware req = Respond r -> errorKindOf r = Some AuthenticationFailure.
Proof.
  unfold authMiddleware.
  destruct (authorization req) as [header|]; [|intros [= <-]; reflexivity].
  destruct (String.eqb header ""); [intros [= <-]; reflexivity|].
  destruct (nth_error (split " " header) 1) as [t|];
    [destruct (jwtVerify t)|]; try discriminate; intros [= <-]; reflexivity.
Qed.

Lemma requireAdmin_answers (user : value) (r : response) :
  requireAdmin user = Respond r -> r = Json 403 (message "Admin required").
Proof.
  unfold requireAdmin.
  destruct (negb (truthy user) || notStrictEqualString (roleOf user) "admin");
    [intros [= <-]; reflexivity|discriminate].
Qed.

Lemma not_admin_role (v : value) :
  v <> VStr "admin" -> notStrictEqualString v "admin" = true.
Proof.
  destruct v; simpl; try reflexivity.
  intros H. destruct (String.eqb_spec s "admin") as [->|_];
    [now elim H|reflexivity].
Qed.

(** C8. On the results endpoint a request without a token gets an
    AuthenticationFailure, and a request whose token verifies to a user
    whose role is not admin gets an AuthorizationFailure; neither
    changes the store, so no result row is written. *)
Theorem C8_auth_failures {crypto : Crypto} (req : request) (st : store) :
  (authorization req = None ->
   postResults req st = (st, Json 401 (message "Missing auth")) /\
   errorKindOf (snd (postResults req st)) = Some AuthenticationFailure /\
   results (fst (postResults req st)) = results st) /\
  (forall (header token : string) (user : value),
      authorization req = Some header ->
      header <> "" ->
      nth_error (split " " header) 1 = Some token ->
      jwtVerify token = Some user ->
      roleOf user <> VStr "admin" ->
      postResults req st = (st, Json 403 (message "Admin required")) /\
      errorKindOf (snd (postResults req st)) = Some AuthorizationFailure /\
      results (fst (postResults req st)) = results st).
Proof.
  split.
  - intros Hnone.
    assert (postResults req st = (st, Json 401 (message "Missing auth"))) as E.
    { unfold postResults, adminRoute, authMiddleware. now rewrite Hnone. }
    rewrite E. auto.
  - intros header token user Hh Hne Ht Hv Hrole.
    assert (postResults req st = (st, Json 403 (message "Admin required"))) as E.
    { unfold postResults, adminRoute, authMiddleware.
      rewrite Hh.
      destruct (String.eqb_spec header "") as [->|_]; [now elim Hne|].
      rewrite Ht, Hv. unfold requireAdmin.
      rewrite (not_admin_role _ Hrole), orb_true_r. reflexivity. }
    rewrite E. auto.
Qed.

Lemma C8_auth_failures_witness :
  @postResults Fixture.crypto (Fixture.anonymous (roundTripBatch (VNum 1)))
               Fixture.season
    = (Fixture.season, Json 401 (message "Missing auth")) /\
  @postResults Fixture.crypto (Fixture.asUser (roundTripBatch (VNum 1)))
               Fixture.season
    = (Fixture.season, Json 403 (message "Admin required")).
Proof.
  split.
  - apply (proj1 (@C8_auth_failures Fixture.crypto
                    (Fixture.anonymous (roundTripBatch (VNum 1)))
                    Fixture.season)).
    reflexivity.
  - apply (proj2 (@C8_auth_failures Fixture.crypto
                    (Fixture.asUser (roundTripBatch (VNum 1)))
                    Fixture.season)
                 "Bearer user.jwt" "user.jwt" Fixture.plainUser).
    + reflexivity.
    + discriminate.
    + reflexivity.
    + reflexivity.
    + discriminate.
Defined.

(** ** Result rows and score rows *)

Lemma Forall2_In_left {A B : Type} (P : A -> B -> Prop) (l : list A) (l' : list B) :
  Forall2 P l l' -> forall x, In x l -> exists y, In y l' /\ P x y.
Proof.
  induction 1 as [|a b l l' Hab _ IH]; intros x; simpl; [contradiction|].
  intros [<-|Hin]; [exists b; auto|].
  destruct (IH x Hin) as (y & Hy & Hxy). exists y; auto.
Qed.

Lemma Forall2_filter_length {A B : Type} (P : A -> B -> Prop)
      (f : A -> bool) (g : B -> bool) (l : list A) (l' : list B) :
  (forall a b, P a b -> f a = g b) ->
  Forall2 P l l' ->
  List.length (filter f l) = List.length (filter g l').
Proof.
  intros Hfg. induction 1 as [|a b l l' Hab _ IH]; simpl; [reflexivity|].
  rewrite (Hfg a b Hab). destruct (g b); simpl; now rewrite IH.
Qed.

Lemma paired_matches (r r' : result) (f : fantasy_score) :
  paired r' f -> resultMatches r r' = scoreMatches r f.
Proof.
  intros (_ & Ha & Hr & Hp). unfold resultMatches, scoreMatches.
  now rewrite Ha, Hr, Hp.
Qed.

(** C5 as stated fails: after the successful ingestion of a batch that
    names the same athlete and place twice, the Result row has two
    FantasyScore rows with its (athleteId, raceId) and points, not
    one. *)
Lemma C5_two_scores_for_one_result :
  snd (@postResults Fixture.crypto (Fixture.asAdmin Fixture.twice) emptyStore)
    = stored /\
  ~ exactlyOneScore
      (fst (@postResults Fixture.crypto (Fixture.asAdmin Fixture.twice)
                         emptyStore)).
Proof.
  split; [reflexivity|].
  intros H.
  specialize (H (mkResult 1 (SInt 1) (SInt 1) (SInt 1) SNull (SInt 100))).
  assert (2 = 1)%nat as E; [|discriminate E].
  apply H. left. reflexivity.
Qed.

(** ** Registration *)

Lemma postRegister_cases {crypto : Crypto} (req : request) (st : store) :
  (fst (postRegister req st) = st /\
   forall t, snd (postRegister req st) <> Json 200 (VObj [("token", t)])) \/
  (exists email e p n,
      getProp (body req) "email" = Ok email /\
      fst (postRegister req st) = withUser st e p n /\
      snd (postRegister req st)
        = Json 200
            (VObj [("token",
                    VStr (generateToken
                            (VObj [("id", VNum (nextId (map user_id (users st))));
                                   ("email", email);
                                   ("role", VStr "user")])))])).
Proof.
  unfold postRegister, runHandler, registerHandler, bindM, lift.
  destruct (getProp (body req) "email") as [email|x];
    [|left; split; [reflexivity|discriminate]].
  destruct (getProp (body req) "password") as [password|x];
    [|left; split; [reflexivity|discriminate]].
  destruct (getProp (body req) "name") as [nm|x];
    [|left; split; [reflexivity|discriminate]].
  destruct (negb (truthy email) || negb (truthy password));
    [left; split; [reflexivity|discriminate]|].
  destruct password as [| | | |s| |];
    try (left; split; [reflexivity|discriminate]).
  unfold insertUser.
  destruct (bindParameter email) as [e|x]; simpl;
    [|left; split; [reflexivity|discriminate]].
  destruct (bindParameter (orElse nm (VStr ""))) as [n|x]; simpl;
    [|left; split; [reflexivity|discriminate]].
  destruct (negb (sqlval_eqb (textAffinity e) SNull)
            && existsb (fun u => sqlval_eqb (user_email u) (textAffinity e))
                       (users st)); simpl.
  - left; split; [reflexivity|discriminate].
  - right. exists email, (textAffinity e), (SText (bcryptHash s)), (textAffinity n).
    auto.
Qed.

Lemma adminRows_withUser (st : store) (e p n : sqlval) :
  adminRows (withUser st e p n) = adminRows st.
Proof.
  unfold adminRows, withUser; simpl.
  rewrite filter_app; simpl. apply app_nil_r.
Qed.

Lemma adminRows_register {crypto : Crypto} (req : request) (st : store) :
  adminRows (fst (postRegister req st)) = adminRows st.
Proof.
  destruct (postRegister_cases req st) as [[-> _]|(email & e & p & n & _ & -> & _)];
    [reflexivity|apply adminRows_withUser].
Qed.

Lemma adminRows_registrations {crypto : Crypto} (reqs : list request) :
  forall st, adminRows (serveAll (map Register reqs) st) = adminRows st.
Proof.
  induction reqs as [|req reqs IH]; intros st; simpl; [reflexivity|].
  unfold serveAll in *; simpl. rewrite IH. apply adminRows_register.
Qed.

(** C10. A registration that creates a user stores it with the column
    default role 'user' and answers with a token signed over a payload
    whose role is 'user'; otherwise it stores nothing and issues no
    token.  So no sequence of registrations changes which users are
    admins, and from the bootstrapped store the only admin is the
    default one. *)
Theorem C10_registration_role {crypto : Crypto} :
  (forall (req : request) (st : store),
      (fst (postRegister req st) = st /\
       forall t, snd (postRegister req st) <> Json 200 (VObj [("token", t)])) \/
      (exists email e p n,
          getProp (body req) "email" = Ok email /\
          fst (postRegister req st)
            = mkStore (users st
                         ++ [mkUser (nextId (map user_id (users st))) e p n
                                    (SText "user")])
                      (athletes st) (races st) (results st) (fantasy_scores st) /\
          snd (postRegister req st)
            = Json 200
                (VObj [("token",
                        VStr (generateToken
                                (VObj [("id", VNum (nextId (map user_id (users st))));
                                       ("email", email);
                                       ("role", VStr "user")])))]))) /\
  (forall (reqs : list request) (st : store),
      adminRows (serveAll (map Register reqs) st) = adminRows st) /\
  (forall reqs : list request,
      adminRows (serveAll (map Register reqs) (bootstrap emptyStore))
        = [mkUser 1 (SText adminEmail) (SText (bcryptHash "adminpass"))
                  (SText "Administrator") (SText "admin")]).
Proof.
  split; [|split].
  - intros req st. exact (postRegister_cases req st).
  - intros reqs st. apply adminRows_registrations.
  - intros reqs. rewrite adminRows_registrations. reflexivity.
Qed.

(** ** Standings *)

Lemma insertDesc_perm (e : standing) (l : list standing) :
  Permutation (insertDesc e l) (e :: l).
Proof.
  induction l as [|x l IH]; simpl; [reflexivity|].
  destruct (totalPoints x <=? totalPoints e); [reflexivity|].
  rewrite IH. apply perm_swap.
Qed.

Lemma orderByTotalDesc_perm (l : list standing) :
  Permutation (orderByTotalDesc l) l.
Proof.
  induction l as [|x l IH]; simpl; [reflexivity|].
  rewrite insertDesc_perm. now constructor.
Qed.

Lemma insertDesc_sorted (e : standing) (l : list standing) :
  descending l -> descending (insertDesc e l).
Proof.
  unfold descending.
  induction l as [|x l IH]; simpl; intros Hs.
  - repeat constructor.
  - destruct (Z.leb_spec (totalPoints x) (totalPoints e)) as [Hlt|Hge].
    + constructor; [exact Hs|]. constructor; lia.
    + inversion Hs as [|? ? Hs' Hhd]; subst.
      constructor; [now apply IH|].
      destruct l as [|y l]; simpl.
      * constructor; lia.
      * destruct (totalPoints y <=? totalPoints e); constructor;
          [lia|now inversion Hhd].
Qed.

Lemma orderByTotalDesc_sorted (l : list standing) :
  descending (orderByTotalDesc l).
Proof.
  induction l as [|x l IH]; simpl; [constructor|].
  now apply insertDesc_sorted.
Qed.

Lemma leftJoinRow_fst (fss : list fantasy_score) (a : athlete) :
  forall j, In j (leftJoinRow fss a) -> fst j = a.
Proof.
  unfold leftJoinRow. intros j.
  destruct (filter _ fss) as [|f m].
  - intros [<-|[]]; reflexivity.
  - intros Hin. apply in_map_iff in Hin as (fs & <- & _). reflexivity.
Qed.

Lemma leftJoinRow_nonempty (fss : list fantasy_score) (a : athlete) :
  exists o rest, leftJoinRow fss a = (a, o) :: rest.
Proof.
  unfold leftJoinRow. destruct (filter _ fss) as [|f m]; simpl; eauto.
Qed.

Lemma filter_same_key (k : Z) (a : athlete)
      (l : list (athlete * option fantasy_score)) :
  (forall j, In j l -> fst j = a) ->
  groupOf k l = if athlete_id a =? k then l else [].
Proof.
  unfold groupOf. induction l as [|j l IH]; simpl; intros H.
  - now destruct (athlete_id a =? k).
  - rewrite (H j (or_introl eq_refl)), IH by (intros; apply H; auto).
    now destruct (athlete_id a =? k).
Qed.

Lemma groupOf_absent (k : Z) (ats : list athlete) (fss : list fantasy_score) :
  ~ In k (map athlete_id ats) -> groupOf k (leftJoin ats fss) = [].
Proof.
  unfold leftJoin. induction ats as [|a ats IH]; simpl; intros Hn;
    [reflexivity|].
  unfold groupOf in *. rewrite filter_app.
  fold (groupOf k (leftJoinRow fss a)).
  rewrite (filter_same_key k a _ (leftJoinRow_fst fss a)).
  destruct (Z.eqb_spec (athlete_id a) k) as [E|_]; [elim Hn; auto|].
  simpl. apply IH. intros H; apply Hn; auto.
Qed.

Lemma groupOf_present (ats : list athlete) (fss : list fantasy_score)
      (a : athlete) :
  NoDup (map athlete_id ats) -> In a ats ->
  groupOf (athlete_id a) (leftJoin ats fss) = leftJoinRow fss a.
Proof.
  unfold leftJoin. induction ats as [|a0 ats IH]; simpl; intros Hnd Hin;
    [contradiction|].
  inversion Hnd as [|? ? Hnotin Hnd']; subst.
  unfold groupOf at 1. rewrite filter_app.
  fold (groupOf (athlete_id a) (leftJoinRow fss a0)).
  fold (groupOf (athlete_id a) (flat_map (leftJoinRow fss) ats)).
  rewrite (filter_same_key _ a0 _ (leftJoinRow_fst fss a0)).
  destruct Hin as [->|Hin].
  - rewrite Z.eqb_refl.
    fold (leftJoin ats fss). rewrite (groupOf_absent _ _ _ Hnotin).
    apply app_nil_r.
  - destruct (Z.eqb_spec (athlete_id a0) (athlete_id a)) as [E|_].
    + elim Hnotin. rewrite E. now apply in_map.
    + simpl. now apply IH.
Qed.

Lemma ifnull_sumOf (l : list Z) : ifnull (sumOf l) 0 = fold_right Z.add 0 l.
Proof. destruct l; reflexivity. Qed.

Lemma nonNull_matches (a : athlete) (m : list fantasy_score) :
  fold_right Z.add 0 (nonNull (map (fun fs => (a, Some fs)) m))
  = fold_right Z.add 0 (map (fun fs => numericValue (fs_points fs)) m).
Proof.
  induction m as [|f m IH]; simpl; [reflexivity|].
  rewrite fold_right_app, <- IH.
  destruct (fs_points f); simpl; lia.
Qed.

Lemma selectRow_row (fss : list fantasy_score) (a : athlete) :
  selectRow (athlete_id a) (leftJoinRow fss a) = rowOf fss a.
Proof.
  unfold rowOf, ledgerTotal.
  destruct (leftJoinRow_nonempty fss a) as (o & rest & E).
  unfold selectRow. rewrite E, <- E. f_equal.
  rewrite ifnull_sumOf. unfold leftJoinRow.
  destruct (filter _ fss) as [|f m]; [reflexivity|].
  apply nonNull_matches.
Qed.

Lemma groupKeys_ids (ats : list athlete) (fss : list fantasy_score) (k : Z) :
  In k (groupKeys (leftJoin ats fss)) <-> In k (map athlete_id ats).
Proof.
  unfold groupKeys. rewrite nodup_In, !in_map_iff. split.
  - intros (j & <- & Hj). unfold leftJoin in Hj.
    apply in_flat_map in Hj as (a & Ha & Hja).
    exists a. rewrite (leftJoinRow_fst _ _ _ Hja). auto.
  - intros (a & <- & Ha).
    destruct (leftJoinRow_nonempty fss a) as (o & rest & E).
    exists (a, o). split; [reflexivity|].
    unfold leftJoin. apply in_flat_map. exists a. rewrite E. simpl; auto.
Qed.

Lemma standings_ids (st : store) :
  Permutation (map athleteId (standings st))
              (groupKeys (leftJoin (athletes st) (fantasy_scores st))).
Proof.
  unfold standings. rewrite orderByTotalDesc_perm, map_map.
  rewrite map_ext with (g := fun k => k); [now rewrite map_id|].
  intros k. unfold selectRow. now destruct (groupOf k _) as [|[a o] g].
Qed.

Lemma standings_rows (st : store) (e : standing) :
  athleteKeys st ->
  In e (standings st) <->
  exists a, In a (athletes st) /\ e = rowOf (fantasy_scores st) a.
Proof.
  intros Hk. unfold standings.
  split.
  - intros Hin. apply (Permutation_in _ (orderByTotalDesc_perm _)) in Hin.
    apply in_map_iff in Hin as (k & <- & Hkin).
    apply groupKeys_ids, in_map_iff in Hkin as (a & <- & Ha).
    exists a. split; [exact Ha|].
    rewrite (groupOf_present _ _ _ Hk Ha). apply selectRow_row.
  - intros (a & Ha & ->).
    apply (Permutation_in _ (Permutation_sym (orderByTotalDesc_perm _))).
    apply in_map_iff. exists (athlete_id a). split.
    + rewrite (groupOf_present _ _ _ Hk Ha). apply selectRow_row.
    + apply groupKeys_ids. now apply in_map.
Qed.

Lemma standings_nodup (st : store) : NoDup (map athleteId (standings st)).
Proof.
  apply (Permutation_NoDup (Permutation_sym (standings_ids st))).
  apply NoDup_nodup.
Qed.

Lemma standings_sorted (st : store) :
  StronglySorted (fun x y => totalPoints y <= totalPoints x) (standings st).
Proof.
  apply Sorted_StronglySorted.
  - intros x y z Hxy Hyz. lia.
  - apply orderByTotalDesc_sorted.
Qed.

Lemma ledgerSum_ledgerTotal (id : Z) (fss : list fantasy_score) (t : Z) :
  ledgerSum id fss t -> ledgerTotal fss id = t.
Proof.
  unfold ledgerTotal.
  induction 1 as [|fs rest p t Ha Hp _ IH|fs rest t Ha _ IH]; cbn [filter].
  - reflexivity.
  - rewrite Ha. cbn [sqlEqInt]. rewrite Z.eqb_refl. cbn [map fold_right].
    rewrite Hp. cbn [numericValue]. now rewrite IH.
  - destruct (fs_athleteId fs) as [|z|x]; cbn [sqlEqInt]; try exact IH.
    destruct (Z.eqb_spec z id) as [->|_]; [now elim Ha|exact IH].
Qed.

Lemma ledgerSum_none (id : Z) (fss : list fantasy_score) :
  Forall (fun fs => fs_athleteId fs <> SInt id) fss -> ledgerSum id fss 0.
Proof.
  induction 1 as [|fs rest Hfs _ IH]; [constructor|].
  apply ledgerSum_skips; [exact Hfs|exact IH].
Qed.

Lemma ledgerSum_exists (id : Z) (fss : list fantasy_score) :
  Forall (fun fs => exists p, fs_points fs = SInt p) fss ->
  exists t, ledgerSum id fss t.
Proof.
  induction 1 as [|fs rest [p Hp] _ [t IH]].
  - exists 0. constructor.
  - destruct (fs_athleteId fs) as [|z|x] eqn:Ha.
    + exists t. apply ledgerSum_skips; [rewrite Ha; discriminate|exact IH].
    + destruct (Z.eq_dec z id) as [->|Hne].
      * exists (p + t). now apply ledgerSum_counts.
      * exists t. apply ledgerSum_skips; [rewrite Ha; congruence|exact IH].
    + exists t. apply ledgerSum_skips; [rewrite Ha; discriminate|exact IH].
Qed.

(** C6. In a store whose athlete ids are distinct (the primary key of
    the athletes table), the standings list every athlete exactly once,
    each with its name and its country; the total of an entry is the
    sum of the points of the FantasyScore rows whose athleteId is that
    athlete's id (such a sum exists whenever the points are integers),
    which is 0 for an athlete that has no such row; and the list is
    sorted by total in descending order. *)
Theorem C6_standings (st : store) :
  athleteKeys st ->
  Permutation (map athleteId (standings st)) (map athlete_id (athletes st)) /\
  (forall e, In e (standings st) <->
     exists a, In a (athletes st) /\
       e = mkStanding (athlete_id a) (athlete_name a) (athlete_country a)
                      (ledgerTotal (fantasy_scores st) (athlete_id a))) /\
  (forall e, In e (standings st) ->
     totalPoints e = ledgerTotal (fantasy_scores st) (athleteId e)) /\
  (forall e, In e (standings st) ->
     filter (fun fs => sqlEqInt (fs_athleteId fs) (athleteId e))
            (fantasy_scores st) = [] ->
     totalPoints e = 0) /\
  StronglySorted (fun x y => totalPoints y <= totalPoints x) (standings st) /\
  (forall e t, In e (standings st) ->
     ledgerSum (athleteId e) (fantasy_scores st) t -> totalPoints e = t) /\
  (forall e, In e (standings st) ->
     Forall (fun fs => fs_athleteId fs <> SInt (athleteId e)) (fantasy_scores st) ->
     totalPoints e = 0) /\
  (Forall (fun fs => exists p, fs_points fs = SInt p) (fantasy_scores st) ->
   forall e, In e (standings st) ->
     exists t, ledgerSum (athleteId e) (fantasy_scores st) t /\ totalPoints e = t).
Proof.
  intros Hk.
  assert (forall e, In e (standings st) ->
            totalPoints e = ledgerTotal (fantasy_scores st) (athleteId e)) as Ht.
  { intros e He. apply (standings_rows st e Hk) in He as (a & _ & ->).
    reflexivity. }
  assert (forall e t, In e (standings st) ->
            ledgerSum (athleteId e) (fantasy_scores st) t -> totalPoints e = t)
    as Hsum.
  { intros e t He Hs. rewrite (Ht e He). now apply ledgerSum_ledgerTotal. }
  split; [|split; [|split; [|split; [|split; [|split; [|split]]]]]].
  - apply NoDup_Permutation; [apply standings_nodup|exact Hk|].
    intros k. split; intros H.
    + apply (Permutation_in _ (standings_ids st)) in H.
      now apply groupKeys_ids in H.
    + apply (Permutation_in _ (Permutation_sym (standings_ids st))).
      now apply groupKeys_ids.
  - intros e. exact (standings_rows st e Hk).
  - exact Ht.
  - intros e He Hnone. rewrite (Ht e He). unfold ledgerTotal.
    now rewrite Hnone.
  - apply standings_sorted.
  - exact Hsum.
  - intros e He Hnone. apply (Hsum e 0 He).
    now apply ledgerSum_none.
  - intros Hint e He.
    destruct (ledgerSum_exists (athleteId e) _ Hint) as [t Hs].
    exists t. split; [exact Hs|exact (Hsum e t He Hs)].
Qed.

Lemma C6_standings_witness :
  athleteKeys Fixture.season /\
  forall e, In e (standings Fixture.season) -> athleteId e = 2 ->
            totalPoints e = 65.
Proof.
  assert (athleteKeys Fixture.season) as Hk.
  { repeat constructor; simpl; intuition discriminate. }
  split; [exact Hk|].
  intros e He Hid.
  apply (proj1 (proj2 (proj2 (proj2 (proj2 (proj2
           (C6_standings Fixture.season Hk)))))) e 65 He).
  rewrite Hid.
  change 65 with (65 + 0).
  apply ledgerSum_counts; [reflexivity|reflexivity|constructor].
Defined.

(** ** Totals before and after an ingestion *)

Lemma ledgerTotal_snoc (fss : list fantasy_score) (f : fantasy_score) (id : Z) :
  ledgerTotal (fss ++ [f]) id
  = ledgerTotal fss id
    + (if sqlEqInt (fs_athleteId f) id then numericValue (fs_points f) else 0).
Proof.
  unfold ledgerTotal. rewrite filter_app, map_app, fold_right_app. simpl.
  destruct (sqlEqInt (fs_athleteId f) id); simpl.
  - generalize (map (fun fs => numericValue (fs_points fs))
                    (filter (fun fs => sqlEqInt (fs_athleteId fs) id) fss)).
    intros l. induction l as [|x l IH]; simpl; lia.
  - lia.
Qed.

Lemma totalOf_spec (st : store) (id : Z) :
  athleteKeys st ->
  totalOf st id
  = if existsb (fun a => athlete_id a =? id) (athletes st)
    then Some (ledgerTotal (fantasy_scores st) id)
    else None.
Proof.
  intros Hk. unfold totalOf.
  destruct (find (fun e => athleteId e =? id) (standings st)) as [e|] eqn:F.
  - apply find_some in F as [Hin Hid]. apply Z.eqb_eq in Hid.
    apply (standings_rows st e Hk) in Hin as (a & Ha & ->).
    simpl in Hid. subst id.
    replace (existsb _ (athletes st)) with true; [reflexivity|].
    symmetry. apply existsb_exists. exists a. split; [exact Ha|apply Z.eqb_refl].
  - destruct (existsb _ (athletes st)) eqn:E; [|reflexivity].
    apply existsb_exists in E as (a & Ha & Hid). apply Z.eqb_eq in Hid.
    assert (In (rowOf (fantasy_scores st) a) (standings st)) as Hin.
    { apply (standings_rows st _ Hk). exists a; auto. }
    pose proof (find_none _ _ F _ Hin) as Hno. simpl in Hno.
    rewrite Hid, Z.eqb_refl in Hno. discriminate.
Qed.

Lemma totalOf_withEntry (st : store) (rc ac pc tc sc : sqlval) (id : Z) :
  athleteKeys st ->
  totalOf (withEntry st rc ac pc tc sc) id
  = option_map (fun t => t + (if sqlEqInt ac id then numericValue sc else 0))
               (totalOf st id).
Proof.
  intros Hk.
  rewrite (totalOf_spec st id Hk), (totalOf_spec (withEntry st rc ac pc tc sc) id Hk).
  simpl. destruct (existsb _ (athletes st)); [|reflexivity].
  simpl. now rewrite ledgerTotal_snoc.
Qed.

Lemma resultsHandler_run (reqBody R : value) (xs : list value) (st : store) :
  getProp reqBody "raceId" = Ok R ->
  truthy R = true ->
  getProp reqBody "results" = Ok (VArr xs) ->
  runHandler (resultsHandler reqBody) st
  = runHandler (_ <~ forEach xs (storeEntry R) ;; ret stored) st.
Proof.
  intros H1 Ht H2. unfold runHandler, resultsHandler, bindM, lift.
  rewrite H1, H2, Ht. reflexivity.
Qed.

Lemma forEach_cons (x : value) (xs : list value) (f : value -> M unit)
      (st st1 : store) :
  f x st = (st1, Ok tt) -> forEach (x :: xs) f st = forEach xs f st1.
Proof.
  intros H. simpl. unfold bindM. now rewrite H.
Qed.

(** An entry whose athlete and place are numbers writes the place's
    score for that athlete. *)
Lemma storeEntry_number (R r t : value) (rc tc : sqlval) (A p : Z) (st : store) :
  bindParameter R = Ok rc ->
  getProp r "athleteId" = Ok (VNum A) ->
  getProp r "place" = Ok (VNum p) ->
  getProp r "time" = Ok t ->
  bindParameter (orElse t VNull) = Ok tc ->
  storeEntry R r st
  = (withEntry st rc (SInt A) (SInt p) tc (SInt (placeScore p)), Ok tt).
Proof.
  intros Br Ha Hp Ht Bt.
  apply (storeEntry_ok R r (VNum (placeScore p)) (VNum A) (VNum p) t);
    auto using calculate_number.
Qed.

Lemma roundTripBatch_run (R : value) (rc : sqlval) (st : store) :
  truthy R = true ->
  bindParameter R = Ok rc ->
  runHandler (resultsHandler (roundTripBatch R)) st
  = (withEntry (withEntry st rc (SInt 1) (SInt 1) SNull (SInt 100))
               rc (SInt 2) (SInt 2) SNull (SInt 80),
     stored).
Proof.
  intros Ht Br.
  rewrite (resultsHandler_run (roundTripBatch R) R
             [VObj [("athleteId", VNum 1); ("place", VNum 1)];
              VObj [("athleteId", VNum 2); ("place", VNum 2)]] st eq_refl Ht eq_refl).
  unfold runHandler, bindM.
  rewrite (forEach_cons _ _ _ _ _
             (storeEntry_number R
                (VObj [("athleteId", VNum 1); ("place", VNum 1)])
                VUndefined rc SNull 1 1 st
                Br eq_refl eq_refl eq_refl eq_refl)).
  rewrite (forEach_cons _ _ _ _ _
             (storeEntry_number R
                (VObj [("athleteId", VNum 2); ("place", VNum 2)])
                VUndefined rc SNull 2 2 _
                Br eq_refl eq_refl eq_refl eq_refl)).
  reflexivity.
Qed.

(** ** Resubmission *)

Lemma filter_snoc_true {A : Type} (f : A -> bool) (l : list A) (x : A) :
  f x = true -> filter f (l ++ [x]) = (filter f l ++ [x])%list.
Proof.
  intros H. rewrite filter_app. simpl. now rewrite H.
Qed.

(** ** Every store the server can reach *)

Lemma keys_snoc (ids : list Z) : NoDup ids -> NoDup (ids ++ [nextId ids]).
Proof.
  intros H. apply (Permutation_NoDup (Permutation_cons_append ids (nextId ids))).
  constructor; [|exact H].
  intros Hin. apply nextId_above in Hin. lia.
Qed.

Lemma grows_invariants (st st' : store) (n : nat) :
  grows st st' n ->
  ledgerPaired st /\ athleteKeys st -> ledgerPaired st' /\ athleteKeys st'.
Proof.
  intros Hg [Hp Hk]. split; [exact (grows_paired _ _ _ Hg Hp)|].
  destruct (grows_frame _ _ _ Hg) as (_ & Ha & _).
  unfold athleteKeys. now rewrite Ha.
Qed.

Lemma serve_invariants {crypto : Crypto} (c : call) (st : store) :
  ledgerPaired st /\ athleteKeys st ->
  ledgerPaired (serve c st) /\ athleteKeys (serve c st).
Proof.
  intros [Hp Hk]. destruct c as [req|req|req|req|]; simpl.
  - destruct (postRegister_cases req st)
      as [[-> _]|(email & e & p & n & _ & -> & _)]; auto.
  - unfold postAthletes.
    destruct (adminRoute_cases athletesHandler req st)
      as [(r & -> & _)|(-> & _)]; [auto|].
    unfold runHandler, athletesHandler, bindM, lift, insertAthlete.
    destruct (getProp (body req) "name") as [nm|x]; [|auto].
    destruct (getProp (body req) "country") as [co|x]; [|auto].
    destruct (bindParameter nm) as [n|x]; simpl; [|auto].
    destruct (bindParameter co) as [c|x]; simpl; [|auto].
    split; [exact Hp|].
    unfold athleteKeys; simpl. rewrite map_app; simpl. now apply keys_snoc.
  - unfold postRaces.
    destruct (adminRoute_cases racesHandler req st)
      as [(r & -> & _)|(-> & _)]; [auto|].
    unfold runHandler, racesHandler, bindM, lift, insertRace.
    destruct (getProp (body req) "name") as [nm|x]; [|auto].
    destruct (getProp (body req) "date") as [da|x]; [|auto].
    destruct (bindParameter nm) as [n|x]; simpl; [|auto].
    destruct (bindParameter da) as [d|x]; simpl; auto.
  - unfold postResults.
    destruct (adminRoute_cases resultsHandler req st)
      as [(r & -> & _)|(-> & _)]; [auto|].
    pose proof (resultsHandler_cases (body req) st) as C.
    destruct (runHandler (resultsHandler (body req)) st) as [st' resp].
    simpl.
    destruct C as [(e & _ & n & Hg)|[(_ & -> & _)|(_ & raceId & xs & _ & _ & _ & Hg)]];
      eauto using grows_invariants.
  - auto.
Qed.

(** From the bootstrapped store, whatever calls the server has served,
    each with its statements run before the next, Result and
    FantasyScore rows correspond one to one and athlete ids are
    distinct. *)
Lemma reachable_invariants {crypto : Crypto} (cs : list call) :
  ledgerPaired (serveAll cs (bootstrap emptyStore)) /\
  athleteKeys (serveAll cs (bootstrap emptyStore)).
Proof.
  assert (forall st, ledgerPaired st /\ athleteKeys st ->
                     ledgerPaired (serveAll cs st) /\ athleteKeys (serveAll cs st))
    as H.
  { induction cs as [|c cs IH]; intros st Hst; [exact Hst|].
    unfold serveAll in *; simpl. apply IH. now apply serve_invariants. }
  apply H. split; [constructor|constructor].
Qed.

(** * Further properties of the code *)

(** ** Scoring: every value it can return *)

Lemma assoc_In {A : Type} (key : string) (l : list (string * A)) (a : A) :
  assoc key l = Some a -> In (key, a) l.
Proof.
  induction l as [|[k v] l IH]; simpl; [discriminate|].
  destruct (String.eqb_spec key k) as [->|_].
  - intros [= ->]; auto.
  - auto.
Qed.

Lemma placePoints_values (key : string) (n : Z) :
  assoc key placePoints = Some n -> In n scoreValues /\ n <> 0.
Proof.
  intros H. apply assoc_In in H. simpl in H.
  repeat (destruct H as [H|H];
          [injection H as _ <-; split; [simpl; tauto|discriminate]|]).
  contradiction.
Qed.

Lemma scoring_values (result v : value) :
  calculatePointsForResult result = Ok v ->
  (exists n, v = VNum n /\ In n scoreValues /\ 0 <= n <= 100) \/
  (exists key text,
      assoc key objectPrototype = Some text /\ v = VStr ("0" ++ text)).
Proof.
  unfold calculatePointsForResult, placePointsAt.
  destruct (getProp result "place") as [place|e]; simpl; [|discriminate].
  destruct (toPropertyKey place) as [key|e]; simpl; [|discriminate].
  unfold getMember.
  destruct (assoc key placePoints) as [n|] eqn:Hown.
  - destruct (placePoints_values key n Hown) as [Hin Hn0].
    simpl. destruct (Z.eqb_spec n 0) as [->|_]; [now elim Hn0|].
    simpl. intros [= <-]. left. exists n. split; [reflexivity|].
    split; [exact Hin|].
    simpl in Hin. intuition lia.
  - destruct (assoc key objectPrototype) as [text|] eqn:Hinh; simpl.
    + intros [= <-]. right. exists key, text. auto.
    + intros [= <-]. left. exists 0. simpl. intuition lia.
Qed.

(** X1. Whatever the record, a score that is returned is 0 or a value
    of the rule table, or else the text "0" followed by the text of a
    member inherited from Object.prototype; it is never negative and
    never above 100. *)
Theorem scoring_range (result v : value) :
  calculatePointsForResult result = Ok v ->
  (exists n, v = VNum n /\ In n scoreValues /\ 0 <= n <= 100) \/
  (exists key text,
      assoc key objectPrototype = Some text /\ v = VStr ("0" ++ text)).
Proof.
  exact (scoring_values result v).
Qed.

Lemma scoring_range_witness :
  (exists n, VNum 65 = VNum n /\ In n scoreValues /\ 0 <= n <= 100) \/
  (exists key text,
      assoc key objectPrototype = Some text /\ VNum 65 = VStr ("0" ++ text)).
Proof.
  apply (scoring_range (VObj [("athleteId", VNum 7); ("place", VNum 3)])).
  reflexivity.
Defined.

(** X2. The score depends on the place only through the property key
    it converts to: a place given as the decimal string of p, or as the
    one-element array [p], scores what the number p scores. *)
Theorem scoring_by_key (result place : value) (p : Z) :
  getProp result "place" = Ok place ->
  place = VStr (numberToString p) \/ place = VArr [VNum p]
    \/ place = VArr [VStr (numberToString p)] ->
  calculatePointsForResult result = Ok (VNum (placeScore p)).
Proof.
  intros Hplace Hform.
  assert (toPropertyKey place = Ok (numberToString p)) as Hkey.
  { destruct Hform as [-> | [-> | ->]]; reflexivity. }
  rewrite (calculate_with_member result place _ Hplace Hkey).
  assert (getProp (VObj [("place", VNum p)]) "place" = Ok (VNum p)) as Hn
    by reflexivity.
  rewrite <- (calculate_number _ _ Hn).
  now rewrite (calculate_with_member _ (VNum p) (numberToString p) Hn eq_refl).
Qed.

Lemma scoring_by_key_witness :
  calculatePointsForResult (VObj [("athleteId", VNum 4); ("place", VStr "2")])
  = Ok (VNum 80).
Proof.
  apply (scoring_by_key (VObj [("athleteId", VNum 4); ("place", VStr "2")])
                        (VStr "2") 2).
  - reflexivity.
  - left; reflexivity.
Defined.

(** ** The token checks *)

Lemma split_firstWord (s : string) :
  exists rest, split " " s = firstWord s :: rest.
Proof.
  induction s as [|c s [rest IH]]; simpl; [now exists []|].
  destruct (Ascii.eqb c " "); [eauto|].
  rewrite IH. eauto.
Qed.

Lemma firstWord_noBlank (s : string) : noBlank s = true -> firstWord s = s.
Proof.
  induction s as [|c s IH]; simpl; [reflexivity|].
  destruct (Ascii.eqb c " "); simpl; [discriminate|].
  intros H. now rewrite IH.
Qed.

Lemma setAuth_token (t : string) :
  nth_error (split " " (setAuth t)) 1 = Some (firstWord t).
Proof.
  destruct (split_firstWord t) as [rest E].
  unfold setAuth. simpl. now rewrite E.
Qed.

(** X3. A header made by the client's [setAuth] is read back by
    [authMiddleware] as the token up to its first blank, so as the
    token itself when it has none (as a signed token has): the request
    passes with the user the token verifies to, and gets 401 when it
    does not verify. *)
Theorem authMiddleware_setAuth {crypto : Crypto} (t : string) (reqBody : value) :
  authMiddleware (mkRequest (Some (setAuth t)) reqBody)
  = match jwtVerify (firstWord t) with
    | Some user => Next user
    | None => Respond (Json 401 (message "Invalid token"))
    end /\
  (noBlank t = true ->
   authMiddleware (mkRequest (Some (setAuth t)) reqBody)
   = match jwtVerify t with
     | Some user => Next user
     | None => Respond (Json 401 (message "Invalid token"))
     end).
Proof.
  assert (authMiddleware (mkRequest (Some (setAuth t)) reqBody)
          = match jwtVerify (firstWord t) with
            | Some user => Next user
            | None => Respond (Json 401 (message "Invalid token"))
            end) as E.
  { unfold authMiddleware. cbn [authorization].
    rewrite setAuth_token. reflexivity. }
  split; [exact E|].
  intros Hnb. now rewrite E, (firstWord_noBlank t Hnb).
Qed.

Lemma authMiddleware_setAuth_witness :
  @authMiddleware Desk.crypto (mkRequest (Some (setAuth "admin.jwt")) VNull)
  = Next Desk.adminPayload.
Proof.
  apply (proj2 (@authMiddleware_setAuth Desk.crypto "admin.jwt" VNull)).
  reflexivity.
Defined.

Lemma role_admin_truthy (user : value) :
  getProp user "role" = Ok (VStr "admin") -> truthy user = true.
Proof.
  destruct user; simpl; try discriminate; reflexivity.
Qed.

Lemma requireAdmin_passes (user : value) :
  requireAdmin user = Next tt <-> getProp user "role" = Ok (VStr "admin").
Proof.
  unfold requireAdmin, roleOf. split.
  - destruct (truthy user) eqn:Ht; simpl; [|discriminate].
    destruct (getProp user "role") as [r|e] eqn:Hr.
    + destruct r; simpl; try discriminate.
      destruct (String.eqb_spec s "admin") as [->|_]; [reflexivity|discriminate].
    + simpl. discriminate.
  - intros Hr. rewrite (role_admin_truthy user Hr), Hr. reflexivity.
Qed.

(** X4. The admin gate: a request reaches the handler of an admin
    route exactly when its Authorization header is not empty, its
    second blank-separated piece verifies, and the verified user has
    the role 'admin'; any other request is answered 401 or 403 by the
    middleware and leaves the store as it was, whatever the handler. *)
Theorem admin_gate {crypto : Crypto} (req : request) :
  (cleared req <->
   exists header token user,
     authorization req = Some header /\ header <> "" /\
     nth_error (split " " header) 1 = Some token /\
     jwtVerify token = Some user /\
     getProp user "role" = Ok (VStr "admin")) /\
  (~ cleared req ->
   forall (h : value -> M response) (st : store),
     fst (adminRoute h req st) = st /\
     (errorKindOf (snd (adminRoute h req st)) = Some AuthenticationFailure \/
      errorKindOf (snd (adminRoute h req st)) = Some AuthorizationFailure)).
Proof.
  split.
  - unfold cleared, authMiddleware. split.
    + intros (user & Ha & Hr). revert Ha.
      destruct (authorization req) as [header|]; [|discriminate].
      destruct (String.eqb_spec header "") as [->|Hne]; [discriminate|].
      destruct (nth_error (split " " header) 1) as [token|] eqn:Ht;
        [|discriminate].
      destruct (jwtVerify token) as [u|] eqn:Hv; [|discriminate].
      intros [= ->].
      exists header, token, user. repeat split; auto.
      now apply requireAdmin_passes.
    + intros (header & token & user & Hh & Hne & Ht & Hv & Hr).
      exists user. rewrite Hh.
      destruct (String.eqb_spec header "") as [->|_]; [now elim Hne|].
      rewrite Ht, Hv. split; [reflexivity|now apply requireAdmin_passes].
  - intros Hn h st.
    destruct (adminRoute_cases h req st)
      as [(r & E & Hr)|(_ & user & Ha & Hr)].
    + rewrite E; simpl. split; [reflexivity|].
      destruct Hr as [Hr|(user & _ & Hr)].
      * left. now apply authMiddleware_answers in Hr.
      * right. apply requireAdmin_answers in Hr. now subst r.
    + elim Hn. exists user; auto.
Qed.

(** X5. When the empty token does not verify, [authenticateToken] of
    auth.js and [authMiddleware] of server.js let the same requests
    pass, with the same user, and answer every other request with
    401. *)
Theorem token_checks_agree {crypto : Crypto} (req : request) :
  jwtVerify "" = None ->
  match authenticateToken req, authMiddleware req with
  | Next user, Next user' => user = user'
  | Respond r, Respond r' =>
      errorKindOf r = Some AuthenticationFailure /\
      errorKindOf r' = Some AuthenticationFailure
  | _, _ => False
  end.
Proof.
  intros Hempty. unfold authenticateToken, authMiddleware.
  destruct (authorization req) as [header|]; [|split; reflexivity].
  destruct (String.eqb header ""); [split; reflexivity|].
  destruct (nth_error (split " " header) 1) as [token|]; [|split; reflexivity].
  destruct (String.eqb_spec token "") as [->|_].
  - rewrite Hempty. split; reflexivity.
  - destruct (jwtVerify token); [reflexivity|split; reflexivity].
Qed.

Lemma token_checks_agree_witness :
  @authenticateToken Desk.crypto (mkRequest (Some "Bearer user.jwt") VNull)
  = Next Desk.janePayload.
Proof.
  pose proof (@token_checks_agree Desk.crypto
                (mkRequest (Some "Bearer user.jwt") VNull) eq_refl) as H.
  destruct (@authenticateToken Desk.crypto
              (mkRequest (Some "Bearer user.jwt") VNull)) as [user|r] eqn:E.
  - f_equal. exact H.
  - discriminate E.
Defined.

(** ** Ingestion as a function of the entries *)

Lemma storeEntry_cells (raceId r : value) (st : store) :
  storeEntry raceId r st
  = match entryCells raceId r with
    | Ok (rc, ac, pc, tc, sc) => (withEntry st rc ac pc tc sc, Ok tt)
    | Throw e => (st, Throw e)
    end.
Proof.
  unfold storeEntry, entryCells, bindM, lift, bind.
  destruct (calculatePointsForResult r) as [pts|e]; [|reflexivity].
  destruct (getProp r "athleteId") as [a|e]; [|reflexivity].
  destruct (getProp r "place") as [p|e]; [|reflexivity].
  destruct (getProp r "time") as [t|e]; [|reflexivity].
  unfold insertResult, insertFantasyScore, bind.
  destruct (bindParameter raceId) as [rc|e]; [|reflexivity].
  destruct (bindParameter a) as [ac|e]; [|reflexivity].
  destruct (bindParameter p) as [pc|e]; [|reflexivity].
  destruct (bindParameter (orElse t VNull)) as [tc|e]; [|reflexivity].
  destruct (bindParameter pts) as [sc|e]; reflexivity.
Qed.

Lemma forEach_app (xs ys : list value) (f : value -> M unit) (st : store) :
  forEach (xs ++ ys) f st
  = match forEach xs f st with
    | (st1, Ok _) => forEach ys f st1
    | (st1, Throw e) => (st1, Throw e)
    end.
Proof.
  revert st. induction xs as [|x xs IH]; intros st; simpl; [reflexivity|].
  unfold bindM. destruct (f x st) as [st1 [[]|e]]; [apply IH|reflexivity].
Qed.

Lemma resultsBody_run (R : value) (xs : list value) (st : store) :
  truthy R = true ->
  runHandler (resultsHandler (resultsBody R xs)) st
  = match forEach xs (storeEntry R) st with
    | (st1, Ok _) => (st1, stored)
    | (st1, Throw e) => (st1, Uncaught e)
    end.
Proof.
  intros Ht.
  rewrite (resultsHandler_run (resultsBody R xs) R xs st eq_refl Ht eq_refl).
  unfold runHandler, bindM.
  destruct (forEach xs (storeEntry R) st) as [st1 [[]|e]]; reflexivity.
Qed.

Lemma cleared_header {crypto : Crypto} (h : option string) (b b' : value) :
  cleared (mkRequest h b) -> cleared (mkRequest h b').
Proof.
  intros (user & Ha & Hr). exists user. split; [exact Ha|exact Hr].
Qed.

Lemma stored_cleared {crypto : Crypto} (req : request) (st : store) :
  snd (postResults req st) = stored ->
  cleared req /\
  exists R, getProp (body req) "raceId" = Ok R /\ truthy R = true.
Proof.
  unfold postResults. intros Hok.
  destruct (adminRoute_cases resultsHandler req st)
    as [(r & E & Hr)|(E & Hc)]; rewrite E in Hok; simpl in Hok.
  - subst r. destruct Hr as [Hr|(user & _ & Hr)].
    + apply authMiddleware_answers in Hr; discriminate.
    + apply requireAdmin_answers in Hr; discriminate.
  - split; [exact Hc|].
    pose proof (resultsHandler_cases (body req) st) as C.
    destruct (runHandler (resultsHandler (body req)) st) as [st' resp].
    simpl in Hok. subst resp.
    destruct C as [(e & He & _)|[(He & _)|(_ & R & xs & HR & Ht & _)]];
      try discriminate.
    exists R; auto.
Qed.

(** X6. Batches compose and nothing is rolled back.  When the batch
    [xs] for a race is ingested successfully, ingesting [xs ++ ys] in
    one request does what ingesting [ys] after [xs] does; and when the
    entry after [xs] makes the scoring function throw, the request
    ends with that exception, the rows of [xs] stay written and the
    entries after it are never looked at. *)
Theorem batches_compose {crypto : Crypto} (h : option string) (R : value)
        (xs : list value) (st : store) :
  snd (postResults (mkRequest h (resultsBody R xs)) st) = stored ->
  (forall ys,
      postResults (mkRequest h (resultsBody R (xs ++ ys))) st
      = postResults (mkRequest h (resultsBody R ys))
                    (fst (postResults (mkRequest h (resultsBody R xs)) st))) /\
  (forall bad ys e,
      calculatePointsForResult bad = Throw e ->
      postResults (mkRequest h (resultsBody R (xs ++ bad :: ys))) st
      = (fst (postResults (mkRequest h (resultsBody R xs)) st), Uncaught e)).
Proof.
  intros Hok.
  destruct (stored_cleared _ _ Hok) as (Hc & R' & HR & Ht).
  injection HR as <-.
  assert (forall zs st0,
             postResults (mkRequest h (resultsBody R zs)) st0
             = match forEach zs (storeEntry R) st0 with
               | (st1, Ok _) => (st1, stored)
               | (st1, Throw e) => (st1, Uncaught e)
               end) as Run.
  { intros zs st0. unfold postResults.
    rewrite (cleared_route _ _ _ (cleared_header h _ (resultsBody R zs) Hc)).
    apply (resultsBody_run R zs st0 Ht). }
  rewrite Run in Hok |- *.
  destruct (forEach xs (storeEntry R) st) as [st1 [[]|e0]] eqn:Hxs;
    [|discriminate]. simpl fst.
  split.
  - intros ys. rewrite !Run, forEach_app, Hxs. reflexivity.
  - intros bad ys e Hbad. rewrite Run, forEach_app, Hxs. simpl.
    unfold bindM. rewrite storeEntry_cells. unfold entryCells.
    rewrite Hbad. reflexivity.
Qed.

Lemma batches_compose_witness :
  @postResults Fixture.crypto
     (Fixture.asAdmin
        (resultsBody (VNum 1)
           ([VObj [("athleteId", VNum 1); ("place", VNum 1)]]
              ++ [VNull; VObj [("athleteId", VNum 2); ("place", VNum 2)]])))
     Fixture.season
  = (fst (@postResults Fixture.crypto
            (Fixture.asAdmin
               (resultsBody (VNum 1)
                  [VObj [("athleteId", VNum 1); ("place", VNum 1)]]))
            Fixture.season),
     Uncaught (TypeError "Cannot read properties of null")).
Proof.
  apply (proj2 (@batches_compose Fixture.crypto (Some "Bearer admin.jwt")
                  (VNum 1) [VObj [("athleteId", VNum 1); ("place", VNum 1)]]
                  Fixture.season eq_refl)).
  reflexivity.
Defined.

(** ** What an ingestion does to the ledger *)

Lemma inherited_text_counts_zero (key text : string) :
  assoc key objectPrototype = Some text ->
  numericValue (SText ("0" ++ text)) = 0.
Proof.
  intros H. apply assoc_In in H. simpl in H.
  repeat (destruct H as [H|H]; [injection H as _ <-; reflexivity|]).
  contradiction.
Qed.

Lemma score_cell_nonneg (r pts : value) (sc : sqlval) :
  calculatePointsForResult r = Ok pts ->
  bindParameter pts = Ok sc ->
  0 <= numericValue sc.
Proof.
  intros Hc Hb.
  destruct (scoring_values r pts Hc)
    as [(n & -> & _ & Hn)|(key & text & Hk & ->)];
    simpl in Hb; injection Hb as <-.
  - simpl; lia.
  - change (SText (String "0" text)) with (SText ("0" ++ text)).
    rewrite (inherited_text_counts_zero key text Hk). lia.
Qed.

Lemma entryPoints_nonneg (R : value) (id : Z) (r : value) :
  0 <= entryPoints R id r.
Proof.
  unfold entryPoints, entryCells, bind.
  destruct (calculatePointsForResult r) as [pts|e] eqn:Hc; [|lia].
  destruct (getProp r "athleteId") as [a|e]; [|lia].
  destruct (getProp r "place") as [p|e]; [|lia].
  destruct (getProp r "time") as [t|e]; [|lia].
  destruct (bindParameter R) as [rc|e]; [|lia].
  destruct (bindParameter a) as [ac|e]; [|lia].
  destruct (bindParameter p) as [pc|e]; [|lia].
  destruct (bindParameter (orElse t VNull)) as [tc|e]; [|lia].
  destruct (bindParameter pts) as [sc|e] eqn:Hb; [|lia].
  destruct (sqlEqInt ac id); [|lia].
  exact (score_cell_nonneg r pts sc Hc Hb).
Qed.

Lemma forEach_ledger (R : value) (xs : list value) :
  forall st,
    users (fst (forEach xs (storeEntry R) st)) = users st /\
    athletes (fst (forEach xs (storeEntry R) st)) = athletes st /\
    races (fst (forEach xs (storeEntry R) st)) = races st /\
    (forall id,
        ledgerTotal (fantasy_scores st) id
        <= ledgerTotal (fantasy_scores (fst (forEach xs (storeEntry R) st))) id) /\
    (snd (forEach xs (storeEntry R) st) = Ok tt ->
     forall id,
       ledgerTotal (fantasy_scores (fst (forEach xs (storeEntry R) st))) id
       = ledgerTotal (fantasy_scores st) id
         + fold_right Z.add 0 (map (entryPoints R id) xs)).
Proof.
  induction xs as [|x xs IH]; intros st.
  - simpl. repeat split; intros; lia.
  - simpl. unfold bindM. rewrite storeEntry_cells.
    pose proof (fun id => entryPoints_nonneg R id x) as Hx.
    unfold entryPoints in *.
    destruct (entryCells R x) as [[[[[rc ac] pc] tc] sc]|e].
    + destruct (IH (withEntry st rc ac pc tc sc)) as (Hu & Ha & Hr & Hle & Heq).
      rewrite Hu, Ha, Hr. repeat split.
      * intros id. specialize (Hle id). specialize (Hx id).
        simpl fantasy_scores in Hle at 1. rewrite ledgerTotal_snoc in Hle.
        simpl in Hle. lia.
      * intros Hok id. rewrite (Heq Hok id).
        simpl fantasy_scores at 1. rewrite ledgerTotal_snoc. simpl. lia.
    + simpl. repeat split; try lia. discriminate.
Qed.

Lemma postResults_forEach {crypto : Crypto} (req : request) (st : store) :
  fst (postResults req st) = st \/
  exists R xs, fst (postResults req st) = fst (forEach xs (storeEntry R) st).
Proof.
  unfold postResults.
  destruct (adminRoute_cases resultsHandler req st)
    as [(r & -> & _)|(-> & _)]; [now left|].
  unfold runHandler, resultsHandler, bindM, lift.
  destruct (getProp (body req) "raceId") as [R|e]; [|now left].
  destruct (getProp (body req) "results") as [rs|e]; [|now left].
  destruct (negb (truthy R) || negb (isArray rs)); [now left|].
  right. exists R, (match rs with VArr xs => xs | _ => [] end).
  destruct (forEach _ (storeEntry R) st) as [st1 [[]|e]]; reflexivity.
Qed.

(** X7. Whatever the request, the results endpoint leaves users,
    athletes and races alone, and it never lowers a total: for every
    athlete id the sum of its FantasyScore points after the request is
    at least what it was, and an athlete the standings listed with a
    total is still listed, with a total at least as high. *)
Theorem ingestion_never_lowers {crypto : Crypto} (req : request) (st : store) :
  users (fst (postResults req st)) = users st /\
  athletes (fst (postResults req st)) = athletes st /\
  races (fst (postResults req st)) = races st /\
  (forall id,
      ledgerTotal (fantasy_scores st) id
      <= ledgerTotal (fantasy_scores (fst (postResults req st))) id) /\
  (athleteKeys st ->
   forall id t, totalOf st id = Some t ->
     exists t', totalOf (fst (postResults req st)) id = Some t' /\ t <= t').
Proof.
  assert (users (fst (postResults req st)) = users st /\
          athletes (fst (postResults req st)) = athletes st /\
          races (fst (postResults req st)) = races st /\
          (forall id,
              ledgerTotal (fantasy_scores st) id
              <= ledgerTotal (fantasy_scores (fst (postResults req st))) id))
    as (Hu & Ha & Hr & Hle).
  { destruct (postResults_forEach req st) as [->|(R & xs & ->)].
    - repeat split; intros; lia.
    - destruct (forEach_ledger R xs st) as (Hu & Ha & Hr & Hle & _). auto. }
  repeat split; auto.
  intros Hk id t Ht.
  assert (athleteKeys (fst (postResults req st))) as Hk'
    by (unfold athleteKeys; now rewrite Ha).
  rewrite (totalOf_spec _ id Hk) in Ht.
  rewrite (totalOf_spec _ id Hk'), Ha.
  destruct (existsb _ (athletes st)); [|discriminate].
  injection Ht as <-. eexists; split; [reflexivity|apply Hle].
Qed.

Lemma ingestion_never_lowers_witness :
  exists t', totalOf (fst (@postResults Fixture.crypto
                             (Fixture.asAdmin Fixture.twice) Fixture.season)) 2
             = Some t' /\ 65 <= t'.
Proof.
  apply (proj2 (proj2 (proj2 (proj2
           (@ingestion_never_lowers Fixture.crypto
              (Fixture.asAdmin Fixture.twice) Fixture.season))))).
  - repeat constructor; simpl; intuition discriminate.
  - reflexivity.
Defined.

(** ** The standings as a function of athletes and totals *)

Lemma nodup_block (x : Z) (l1 l2 : list Z) :
  l1 <> [] -> (forall y, In y l1 -> y = x) -> ~ In x l2 ->
  nodup Z.eq_dec (l1 ++ l2) = x :: nodup Z.eq_dec l2.
Proof.
  induction l1 as [|y l1 IH]; intros Hne Hall Hx; [now elim Hne|].
  assert (y = x) as -> by (apply Hall; now left).
  simpl. destruct l1 as [|z l1].
  - simpl. destruct (in_dec Z.eq_dec x l2); [contradiction|reflexivity].
  - destruct (in_dec Z.eq_dec x ((z :: l1) ++ l2)) as [_|Hn].
    + apply IH; [discriminate| |exact Hx].
      intros w Hw. apply Hall. now right.
    + elim Hn. left. apply Hall. right; now left.
Qed.

Lemma groupKeys_exact (ats : list athlete) (fss : list fantasy_score) :
  NoDup (map athlete_id ats) ->
  groupKeys (leftJoin ats fss) = map athlete_id ats.
Proof.
  induction ats as [|a ats IH]; intros Hnd; [reflexivity|].
  inversion Hnd as [|? ? Hnotin Hnd']; subst.
  unfold groupKeys, leftJoin in *. simpl. rewrite map_app.
  rewrite (nodup_block (athlete_id a)).
  - now rewrite IH.
  - destruct (leftJoinRow_nonempty fss a) as (o & rest & ->). discriminate.
  - intros y Hy. apply in_map_iff in Hy as (j & <- & Hj).
    now rewrite (leftJoinRow_fst _ _ _ Hj).
  - intros Hin. apply Hnotin.
    apply (groupKeys_ids ats fss). unfold groupKeys, leftJoin.
    now apply nodup_In.
Qed.

Lemma standings_closed_form (st : store) :
  athleteKeys st ->
  standings st
  = orderByTotalDesc (map (rowOf (fantasy_scores st)) (athletes st)).
Proof.
  intros Hk. unfold standings.
  rewrite (groupKeys_exact _ _ Hk), map_map. f_equal.
  apply map_ext_in. intros a Ha.
  rewrite (groupOf_present _ _ _ Hk Ha). apply selectRow_row.
Qed.

Lemma sum_permutation (l l' : list Z) :
  Permutation l l' -> fold_right Z.add 0 l = fold_right Z.add 0 l'.
Proof.
  induction 1; simpl; lia.
Qed.

Lemma forEach_succeeds_iff (R : value) (xs : list value) :
  forall st,
    snd (forEach xs (storeEntry R) st) = Ok tt
    <-> Forall (fun x => exists c, entryCells R x = Ok c) xs.
Proof.
  induction xs as [|x xs IH]; intros st; simpl.
  - split; [constructor|reflexivity].
  - unfold bindM. rewrite storeEntry_cells.
    destruct (entryCells R x) as [[[[[rc ac] pc] tc] sc]|e] eqn:E.
    + rewrite IH. split.
      * intros H. constructor; [eauto|exact H].
      * intros H. now inversion H.
    + simpl. split; [discriminate|].
      intros H. inversion H as [|? ? [c Hc] _]. rewrite E in Hc. discriminate.
Qed.

(** X8. The order of the entries in a batch does not matter to the
    leaderboard: if a batch is ingested successfully, so is every
    reordering of it, every athlete id ends with the same sum of
    points either way, and (athlete ids being distinct) the standings
    read afterwards are the same list. *)
Theorem batch_order_irrelevant {crypto : Crypto} (h : option string)
        (R : value) (xs ys : list value) (st : store) :
  Permutation xs ys ->
  snd (postResults (mkRequest h (resultsBody R xs)) st) = stored ->
  snd (postResults (mkRequest h (resultsBody R ys)) st) = stored /\
  (forall id,
      ledgerTotal
        (fantasy_scores (fst (postResults (mkRequest h (resultsBody R ys)) st))) id
      = ledgerTotal
          (fantasy_scores (fst (postResults (mkRequest h (resultsBody R xs)) st)))
          id) /\
  (athleteKeys st ->
   standings (fst (postResults (mkRequest h (resultsBody R ys)) st))
   = standings (fst (postResults (mkRequest h (resultsBody R xs)) st))).
Proof.
  intros Hperm Hok.
  destruct (stored_cleared _ _ Hok) as (Hc & R' & HR & Ht).
  injection HR as <-.
  assert (forall zs,
             postResults (mkRequest h (resultsBody R zs)) st
             = match forEach zs (storeEntry R) st with
               | (st1, Ok _) => (st1, stored)
               | (st1, Throw e) => (st1, Uncaught e)
               end) as Run.
  { intros zs. unfold postResults.
    rewrite (cleared_route _ _ _ (cleared_header h _ (resultsBody R zs) Hc)).
    apply (resultsBody_run R zs st Ht). }
  rewrite Run in Hok. rewrite !Run.
  pose proof (forEach_succeeds_iff R xs st) as Sx.
  pose proof (forEach_succeeds_iff R ys st) as Sy.
  destruct (forEach_ledger R xs st) as (_ & Hax & _ & _ & Hsx).
  destruct (forEach_ledger R ys st) as (_ & Hay & _ & _ & Hsy).
  destruct (forEach xs (storeEntry R) st) as [sx [[]|ex]]; [|discriminate].
  assert (snd (forEach ys (storeEntry R) st) = Ok tt) as Hys.
  { apply Sy. apply (Permutation_Forall Hperm). now apply Sx. }
  destruct (forEach ys (storeEntry R) st) as [sy [[]|ey]]; [|discriminate].
  simpl in *.
  assert (forall id, ledgerTotal (fantasy_scores sy) id
                     = ledgerTotal (fantasy_scores sx) id) as Heq.
  { intros id. rewrite (Hsx eq_refl id), (Hsy eq_refl id). f_equal.
    apply sum_permutation, Permutation_map, Permutation_sym, Hperm. }
  split; [reflexivity|split; [exact Heq|]].
  intros Hk.
  assert (athleteKeys sx) as Hkx by (unfold athleteKeys; now rewrite Hax).
  assert (athleteKeys sy) as Hky by (unfold athleteKeys; now rewrite Hay).
  rewrite (standings_closed_form sy Hky), (standings_closed_form sx Hkx).
  rewrite Hax, Hay. f_equal. apply map_ext. intros a.
  unfold rowOf. now rewrite Heq.
Qed.

Lemma batch_order_irrelevant_witness :
  standings
    (fst (@postResults Fixture.crypto
            (Fixture.asAdmin
               (resultsBody (VNum 1)
                  [VObj [("athleteId", VNum 2); ("place", VNum 2)];
                   VObj [("athleteId", VNum 1); ("place", VNum 1)]]))
            Fixture.season))
  = standings
      (fst (@postResults Fixture.crypto
              (Fixture.asAdmin
                 (resultsBody (VNum 1)
                    [VObj [("athleteId", VNum 1); ("place", VNum 1)];
                     VObj [("athleteId", VNum 2); ("place", VNum 2)]]))
              Fixture.season)).
Proof.
  apply (proj2 (proj2
           (@batch_order_irrelevant Fixture.crypto (Some "Bearer admin.jwt")
              (VNum 1)
              [VObj [("athleteId", VNum 1); ("place", VNum 1)];
               VObj [("athleteId", VNum 2); ("place", VNum 2)]]
              [VObj [("athleteId", VNum 2); ("place", VNum 2)];
               VObj [("athleteId", VNum 1); ("place", VNum 1)]]
              Fixture.season (perm_swap _ _ _) eq_refl))).
  repeat constructor; simpl; intuition discriminate.
Defined.

(** ** Athletes and races *)

Lemma nextId_fresh (ids : list Z) : ~ In (nextId ids) ids.
Proof.
  intros H. apply nextId_above in H. lia.
Qed.

(** X9. When an admin adds an athlete with a name and a country given
    as strings, the row gets an id no athlete had, the answer is the
    very object GET /api/athletes then lists last, and in the standings
    the new athlete starts with the sum of the points already stored
    under that id (0 if there are none) while every other id keeps its
    total. *)
Theorem athlete_added {crypto : Crypto} (req : request) (st : store)
        (n c : string) :
  cleared req ->
  getProp (body req) "name" = Ok (VStr n) ->
  getProp (body req) "country" = Ok (VStr c) ->
  athleteKeys st ->
  ~ In (nextId (map athlete_id (athletes st))) (map athlete_id (athletes st)) /\
  postAthletes req st
  = (mkStore (users st)
             (athletes st
                ++ [mkAthlete (nextId (map athlete_id (athletes st)))
                              (SText n) (SText c)])
             (races st) (results st) (fantasy_scores st),
     Json 200 (athleteJson (mkAthlete (nextId (map athlete_id (athletes st)))
                                      (SText n) (SText c)))) /\
  getAthletes (fst (postAthletes req st))
  = Json 200
      (VArr (map athleteJson (athletes st)
               ++ [athleteJson (mkAthlete (nextId (map athlete_id (athletes st)))
                                          (SText n) (SText c))])) /\
  totalOf (fst (postAthletes req st)) (nextId (map athlete_id (athletes st)))
  = Some (ledgerTotal (fantasy_scores st)
                      (nextId (map athlete_id (athletes st)))) /\
  (forall id, id <> nextId (map athlete_id (athletes st)) ->
     totalOf (fst (postAthletes req st)) id = totalOf st id).
Proof.
  intros Hc Hn Hco Hk.
  assert (postAthletes req st
          = (mkStore (users st)
               (athletes st
                  ++ [mkAthlete (nextId (map athlete_id (athletes st)))
                                (SText n) (SText c)])
               (races st) (results st) (fantasy_scores st),
             Json 200 (athleteJson (mkAthlete (nextId (map athlete_id (athletes st)))
                                              (SText n) (SText c))))) as E.
  { unfold postAthletes. rewrite (cleared_route _ _ _ Hc).
    unfold runHandler, athletesHandler, bindM, lift, insertAthlete.
    rewrite Hn, Hco. reflexivity. }
  split; [apply nextId_fresh|split; [exact E|]].
  rewrite E. simpl fst.
  assert (athleteKeys
            (mkStore (users st)
               (athletes st
                  ++ [mkAthlete (nextId (map athlete_id (athletes st)))
                                (SText n) (SText c)])
               (races st) (results st) (fantasy_scores st))) as Hk'.
  { unfold athleteKeys; simpl. rewrite map_app. simpl. now apply keys_snoc. }
  split; [|split].
  - unfold getAthletes. simpl. now rewrite map_app.
  - rewrite (totalOf_spec _ _ Hk'). simpl.
    rewrite existsb_app. simpl. now rewrite Z.eqb_refl, orb_true_r.
  - intros id Hid. rewrite (totalOf_spec _ _ Hk'), (totalOf_spec _ _ Hk). simpl.
    rewrite existsb_app. simpl.
    destruct (Z.eqb_spec (nextId (map athlete_id (athletes st))) id) as [E'|_];
      [now elim Hid|].
    now rewrite !orb_false_r.
Qed.

Lemma athlete_added_witness :
  totalOf (fst (@postAthletes Fixture.crypto
                  (Fixture.asAdmin
                     (VObj [("name", VStr "Lena Aue"); ("country", VStr "AUT")]))
                  Fixture.season)) 3
  = Some 0.
Proof.
  assert (athleteKeys Fixture.season) as Hk.
  { repeat constructor; simpl; intuition discriminate. }
  destruct (@athlete_added Fixture.crypto
              (Fixture.asAdmin
                 (VObj [("name", VStr "Lena Aue"); ("country", VStr "AUT")]))
              Fixture.season "Lena Aue" "AUT"
              (ex_intro _ Fixture.adminUser (conj eq_refl eq_refl))
              eq_refl eq_refl Hk)
    as (_ & _ & _ & H & _).
  exact H.
Defined.

Lemma sqlCompare_antisym (a b : sqlval) :
  sqlCompare a b = CompOpp (sqlCompare b a).
Proof.
  destruct a, b; simpl; try reflexivity.
  - apply Z.compare_antisym.
  - apply String.compare_antisym.
Qed.

Lemma insertByDateDesc_perm (r : race) (l : list race) :
  Permutation (insertByDateDesc r l) (r :: l).
Proof.
  induction l as [|x l IH]; simpl; [reflexivity|].
  destruct (sqlCompare (race_date x) (race_date r));
    try reflexivity; rewrite IH; apply perm_swap.
Qed.

Lemma insertByDateDesc_sorted (r : race) (l : list race) :
  Sorted (fun x y => sqlCompare (race_date x) (race_date y) <> Lt) l ->
  Sorted (fun x y => sqlCompare (race_date x) (race_date y) <> Lt)
         (insertByDateDesc r l).
Proof.
  induction l as [|x l IH]; simpl; intros Hs.
  - repeat constructor.
  - destruct (sqlCompare (race_date x) (race_date r)) eqn:E.
    + constructor; [exact Hs|]. constructor.
      rewrite sqlCompare_antisym, E. discriminate.
    + constructor; [exact Hs|]. constructor.
      rewrite sqlCompare_antisym, E. discriminate.
    + inversion Hs as [|? ? Hs' Hhd]; subst.
      constructor; [now apply IH|].
      destruct l as [|y l]; simpl.
      * constructor. rewrite E. discriminate.
      * destruct (sqlCompare (race_date y) (race_date r));
          constructor; try (rewrite E; discriminate); now inversion Hhd.
Qed.

Lemma racesByDateDesc_perm (st : store) :
  Permutation (racesByDateDesc st) (races st).
Proof.
  unfold racesByDateDesc.
  induction (races st) as [|r l IH]; simpl; [constructor|].
  rewrite insertByDateDesc_perm. now constructor.
Qed.

Lemma racesByDateDesc_sorted (st : store) :
  Sorted (fun x y => sqlCompare (race_date x) (race_date y) <> Lt)
         (racesByDateDesc st).
Proof.
  unfold racesByDateDesc.
  induction (races st) as [|r l IH]; simpl; [constructor|].
  now apply insertByDateDesc_sorted.
Qed.

(** X10. GET /api/races lists every race of the table exactly once, in
    an order in which no race comes before one with a later date (as
    SQLite compares the date cells: NULL, then numbers, then text byte
    by byte). *)
Theorem races_by_date (st : store) :
  getRaces st = Json 200 (VArr (map raceJson (racesByDateDesc st))) /\
  Permutation (racesByDateDesc st) (races st) /\
  Sorted (fun x y => sqlCompare (race_date x) (race_date y) <> Lt)
         (racesByDateDesc st).
Proof.
  split; [reflexivity|].
  split; [apply racesByDateDesc_perm|apply racesByDateDesc_sorted].
Qed.

(** X17. When an admin creates a race with a name and a date given as
    strings, the row gets an id no race had, the answer carries that id
    with the name and the date, and GET /api/races then lists that
    very object, along with the object of every race that was there. *)
Theorem race_added {crypto : Crypto} (req : request) (st : store)
        (n d : string) :
  cleared req ->
  getProp (body req) "name" = Ok (VStr n) ->
  getProp (body req) "date" = Ok (VStr d) ->
  ~ In (nextId (map race_id (races st))) (map race_id (races st)) /\
  snd (postRaces req st)
  = Json 200 (raceJson (mkRace (nextId (map race_id (races st)))
                               (SText n) (SText d))) /\
  (forall listed,
      getRaces (fst (postRaces req st)) = Json 200 (VArr listed) ->
      In (raceJson (mkRace (nextId (map race_id (races st))) (SText n) (SText d)))
         listed /\
      forall r, In r (races st) -> In (raceJson r) listed).
Proof.
  intros Hc Hn Hd.
  assert (postRaces req st
          = (mkStore (users st) (athletes st)
               (races st ++ [mkRace (nextId (map race_id (races st)))
                                    (SText n) (SText d)])
               (results st) (fantasy_scores st),
             Json 200 (raceJson (mkRace (nextId (map race_id (races st)))
                                        (SText n) (SText d))))) as E.
  { unfold postRaces. rewrite (cleared_route _ _ _ Hc).
    unfold runHandler, racesHandler, bindM, lift, insertRace.
    rewrite Hn, Hd. reflexivity. }
  split; [apply nextId_fresh|]. rewrite E. split; [reflexivity|].
  intros listed [= <-]. simpl fst.
  assert (forall r,
             In r (races st ++ [mkRace (nextId (map race_id (races st)))
                                       (SText n) (SText d)]) ->
             In (raceJson r)
                (map raceJson
                   (racesByDateDesc
                      (mkStore (users st) (athletes st)
                         (races st ++ [mkRace (nextId (map race_id (races st)))
                                              (SText n) (SText d)])
                         (results st) (fantasy_scores st))))) as Hall.
  { intros r Hr. apply in_map.
    apply (Permutation_in _ (Permutation_sym (racesByDateDesc_perm _))).
    exact Hr. }
  split.
  - apply Hall. apply in_or_app. right. now left.
  - intros r Hr. apply Hall. apply in_or_app. now left.
Qed.

Lemma race_added_witness :
  snd (@postRaces Fixture.crypto
         (Fixture.asAdmin
            (VObj [("name", VStr "Final"); ("date", VStr "2025-03-02")]))
         Fixture.season)
  = Json 200 (VObj [("id", VNum 2); ("name", VStr "Final");
                    ("date", VStr "2025-03-02")]).
Proof.
  destruct (@race_added Fixture.crypto
              (Fixture.asAdmin
                 (VObj [("name", VStr "Final"); ("date", VStr "2025-03-02")]))
              Fixture.season "Final" "2025-03-02"
              (ex_intro _ Fixture.adminUser (conj eq_refl eq_refl))
              eq_refl eq_refl)
    as (_ & H & _).
  exact H.
Defined.

(** ** Registration and the users table *)

Lemma sqlval_eqb_eq (a b : sqlval) : sqlval_eqb a b = true <-> a = b.
Proof.
  destruct a, b; simpl; split; try discriminate; try reflexivity.
  - intros H. apply Z.eqb_eq in H. now subst.
  - intros [= ->]. apply Z.eqb_refl.
  - intros H. apply String.eqb_eq in H. now subst.
  - intros [= ->]. apply String.eqb_refl.
Qed.

Lemma email_taken (e : sqlval) (us : list user) :
  existsb (fun u => sqlval_eqb (user_email u) e) us = true
  <-> In e (map user_email us).
Proof.
  rewrite existsb_exists, in_map_iff. split.
  - intros (u & Hu & He). apply sqlval_eqb_eq in He. eauto.
  - intros (u & He & Hu). exists u. split; [exact Hu|]. now apply sqlval_eqb_eq.
Qed.

Lemma truthy_binds_nonnull (v : value) (e : sqlval) :
  truthy v = true -> bindParameter v = Ok e -> e <> SNull.
Proof.
  intros Ht Hb. unfold bindParameter in Hb.
  destruct v; try discriminate Ht; injection Hb as <-; discriminate.
Qed.

Lemma textAffinity_nonnull (e : sqlval) : e <> SNull -> textAffinity e <> SNull.
Proof.
  destruct e; simpl; [intros H; now elim H|discriminate|discriminate].
Qed.


(** What a registration does to the store: nothing, or one new user
    with a fresh id, the e-mail of the request, which no user had, and
    the role 'user'. *)
Lemma postRegister_inserts {crypto : Crypto} (req : request) (st : store) :
  fst (postRegister req st) = st \/
  exists email e p n,
    getProp (body req) "email" = Ok email /\
    bindParameter email = Ok e /\
    fst (postRegister req st) = withUser st (textAffinity e) p n /\
    textAffinity e <> SNull /\
    ~ In (textAffinity e) (map user_email (users st)).
Proof.
  unfold postRegister, runHandler, registerHandler, bindM, lift.
  destruct (getProp (body req) "email") as [email|x]; [|now left].
  destruct (getProp (body req) "password") as [password|x]; [|now left].
  destruct (getProp (body req) "name") as [nm|x]; [|now left].
  destruct (truthy email) eqn:Hte; simpl; [|now left].
  destruct (negb (truthy password)); [now left|].
  destruct password as [| | | |s| |]; try now left.
  unfold insertUser.
  destruct (bindParameter email) as [e|x] eqn:He; simpl; [|now left].
  destruct (bindParameter (orElse nm (VStr ""))) as [n|x]; simpl; [|now left].
  pose proof (textAffinity_nonnull e (truthy_binds_nonnull email e Hte He))
    as Hnn.
  destruct (sqlval_eqb (textAffinity e) SNull) eqn:Hn;
    [apply sqlval_eqb_eq in Hn; contradiction|]. simpl.
  destruct (existsb (fun u => sqlval_eqb (user_email u) (textAffinity e))
                    (users st)) eqn:Hex;
    simpl; [now left|].
  right. exists email, e, (SText (bcryptHash s)), (textAffinity n).
  repeat split; auto.
  intros Hin. apply email_taken in Hin. congruence.
Qed.



(** ** Keys of the schema in every reachable store *)

Lemma NoDup_snoc {A : Type} (l : list A) (x : A) :
  NoDup l -> ~ In x l -> NoDup (l ++ [x]).
Proof.
  intros Hl Hx. apply (Permutation_NoDup (Permutation_cons_append l x)).
  now constructor.
Qed.

Lemma schemaKeys_withUser (st : store) (e p n : sqlval) :
  schemaKeys st -> e <> SNull -> ~ In e (map user_email (users st)) ->
  schemaKeys (withUser st e p n).
Proof.
  intros (Hu & Ha & Hr & Hres & Hfs & He & Hnn) Hne Hfresh.
  unfold schemaKeys, withUser; simpl. rewrite !map_app; simpl.
  repeat split; auto.
  - now apply keys_snoc.
  - now apply NoDup_snoc.
  - apply Forall_app. split; [exact Hnn|]. now constructor.
Qed.

Lemma schemaKeys_withEntry (st : store) (rc ac pc tc sc : sqlval) :
  schemaKeys st -> schemaKeys (withEntry st rc ac pc tc sc).
Proof.
  intros (Hu & Ha & Hr & Hres & Hfs & He & Hnn).
  unfold schemaKeys, withEntry; simpl. rewrite !map_app; simpl.
  repeat split; auto; now apply keys_snoc.
Qed.

Lemma schemaKeys_grows (st st' : store) (n : nat) :
  grows st st' n -> schemaKeys st -> schemaKeys st'.
Proof.
  induction 1; intros Hs; [exact Hs|]. apply schemaKeys_withEntry; auto.
Qed.

Lemma schemaKeys_serve {crypto : Crypto} (c : call) (st : store) :
  schemaKeys st -> schemaKeys (serve c st).
Proof.
  intros Hs. destruct c as [req|req|req|req|]; simpl.
  - destruct (postRegister_inserts req st)
      as [->|(email & e & p & n & _ & _ & -> & Hne & Hfresh)];
      [exact Hs|now apply schemaKeys_withUser].
  - unfold postAthletes.
    destruct (adminRoute_cases athletesHandler req st)
      as [(r & -> & _)|(-> & _)]; [exact Hs|].
    unfold runHandler, athletesHandler, bindM, lift, insertAthlete.
    destruct (getProp (body req) "name") as [nm|x]; [|exact Hs].
    destruct (getProp (body req) "country") as [co|x]; [|exact Hs].
    destruct (bindParameter nm) as [n|x]; simpl; [|exact Hs].
    destruct (bindParameter co) as [c|x]; simpl; [|exact Hs].
    destruct Hs as (Hu & Ha & Hr & Hres & Hfs & He & Hnn).
    unfold schemaKeys; simpl. rewrite map_app; simpl.
    repeat split; auto. now apply keys_snoc.
  - unfold postRaces.
    destruct (adminRoute_cases racesHandler req st)
      as [(r & -> & _)|(-> & _)]; [exact Hs|].
    unfold runHandler, racesHandler, bindM, lift, insertRace.
    destruct (getProp (body req) "name") as [nm|x]; [|exact Hs].
    destruct (getProp (body req) "date") as [da|x]; [|exact Hs].
    destruct (bindParameter nm) as [n|x]; simpl; [|exact Hs].
    destruct (bindParameter da) as [d|x]; simpl; [|exact Hs].
    destruct Hs as (Hu & Ha & Hr & Hres & Hfs & He & Hnn).
    unfold schemaKeys; simpl. rewrite map_app; simpl.
    repeat split; auto. now apply keys_snoc.
  - unfold postResults.
    destruct (adminRoute_cases resultsHandler req st)
      as [(r & -> & _)|(-> & _)]; [exact Hs|].
    pose proof (resultsHandler_cases (body req) st) as C.
    destruct (runHandler (resultsHandler (body req)) st) as [st' resp].
    simpl.
    destruct C as [(e & _ & n & Hg)|[(_ & -> & _)|(_ & raceId & xs & _ & _ & _ & Hg)]];
      eauto using schemaKeys_grows.
  - exact Hs.
Qed.

Lemma schemaKeys_bootstrap {crypto : Crypto} (st : store) :
  schemaKeys st -> schemaKeys (bootstrap st).
Proof.
  intros Hs. unfold bootstrap.
  destruct (existsb _ (users st)) eqn:Hex; [exact Hs|].
  unfold insertUser. simpl. rewrite Hex. simpl.
  destruct Hs as (Hu & Ha & Hr & Hres & Hfs & He & Hnn).
  unfold schemaKeys; simpl. rewrite !map_app; simpl.
  repeat split; auto.
  - now apply keys_snoc.
  - apply NoDup_snoc; [exact He|].
    intros Hin. apply email_taken in Hin. congruence.
  - apply Forall_app. split; [exact Hnn|]. constructor; [discriminate|constructor].
Qed.

(** X12. The keys of the schema hold in every store the server
    reaches: each call and the start-up insertion of the default admin
    keep the ids of every table distinct and the e-mails of the users
    distinct and present, so they hold after any sequence of calls
    from the freshly created tables. *)
Theorem schema_keys_kept {crypto : Crypto} :
  (forall (c : call) (st : store), schemaKeys st -> schemaKeys (serve c st)) /\
  (forall st : store, schemaKeys st -> schemaKeys (bootstrap st)) /\
  (forall cs : list call, schemaKeys (serveAll cs (bootstrap emptyStore))).
Proof.
  split; [exact schemaKeys_serve|split; [exact schemaKeys_bootstrap|]].
  intros cs.
  assert (forall st, schemaKeys st -> schemaKeys (serveAll cs st)) as H.
  { induction cs as [|c cs IH]; intros st Hst; [exact Hst|].
    unfold serveAll in *; simpl. apply IH. now apply schemaKeys_serve. }
  apply H, schemaKeys_bootstrap.
  repeat split; constructor.
Qed.

Lemma schema_keys_kept_witness :
  schemaKeys
    (@serve Fixture.crypto
       (Register (Fixture.anonymous
                    (VObj [("email", VStr "a@x.com"); ("password", VStr "pw123")])))
       (@bootstrap Fixture.crypto emptyStore)).
Proof.
  apply (proj1 (@schema_keys_kept Fixture.crypto)).
  apply (proj1 (proj2 (@schema_keys_kept Fixture.crypto))).
  repeat split; constructor.
Defined.

(** ** Login *)

Lemma find_snoc {A : Type} (f : A -> bool) (l : list A) (x : A) :
  existsb f l = false -> f x = true -> find f (l ++ [x]) = Some x.
Proof.
  induction l as [|y l IH]; simpl; intros Hl Hx; [now rewrite Hx|].
  apply orb_false_iff in Hl as [Hy Hl]. rewrite Hy. now apply IH.
Qed.

Lemma existsb_pointwise {A : Type} (f g : A -> bool) (l : list A) :
  (forall x, f x = g x) -> existsb f l = existsb g l.
Proof.
  intros H. induction l as [|x l IH]; simpl; [reflexivity|].
  now rewrite H, IH.
Qed.

Lemma sqlEq_text (c : sqlval) (s : string) :
  sqlEq c (SText s) = sqlval_eqb c (SText s).
Proof. destruct c; reflexivity. Qed.


(** X14. Register, then log in: when a registration with string e-mail
    and password succeeded and bcrypt accepts a password against its
    own hash, logging in with the same body on the resulting store
    succeeds, with role 'user' and a token signed over the new user's
    id, e-mail and the role 'user'. *)
Theorem register_then_login {crypto : Crypto} {check : PasswordCheck}
        (req : request) (st : store) (em pw : string) (t : value) :
  getProp (body req) "email" = Ok (VStr em) ->
  getProp (body req) "password" = Ok (VStr pw) ->
  bcryptCompare pw (bcryptHash pw) = true ->
  snd (postRegister req st) = Json 200 (VObj [("token", t)]) ->
  exists name,
    postLogin req (fst (postRegister req st))
    = (fst (postRegister req st),
       Json 200
         (VObj [("token",
                 VStr (generateToken
                         (VObj [("id", VNum (nextId (map user_id (users st))));
                                ("email", VStr em);
                                ("role", VStr "user")])));
                ("role", VStr "user");
                ("name", name)])).
Proof.
  intros Hem Hpw Hcheck.
  unfold postRegister, runHandler, registerHandler, bindM, lift.
  rewrite Hem, Hpw.
  destruct (getProp (body req) "name") as [nm|x]; [|discriminate].
  destruct (negb (truthy (VStr em)) || negb (truthy (VStr pw)));
    [discriminate|].
  unfold insertUser.
  change (bindParameter (VStr em)) with (Ok (SText em)).
  change (bindParameter (VStr (bcryptHash pw))) with (Ok (SText (bcryptHash pw))).
  cbn [bind].
  destruct (bindParameter (orElse nm (VStr ""))) as [n|x]; cbn [bind];
    [|discriminate].
  cbn [textAffinity].
  change (negb (sqlval_eqb (SText em) SNull)) with true. cbn [andb].
  destruct (existsb (fun u => sqlval_eqb (user_email u) (SText em)) (users st))
    eqn:Hex; [discriminate|].
  intros _. exists (cellValue (textAffinity n)).
  unfold postLogin, runHandler, loginHandler, bindM, lift, selectUserByEmail.
  rewrite Hem, Hpw.
  cbn -[find nextId].
  rewrite (find_snoc (fun u => sqlEq (user_email u) (SText em))).
  - cbn. rewrite Hcheck. reflexivity.
  - rewrite <- Hex. apply existsb_pointwise. intros u. apply sqlEq_text.
  - simpl. apply String.eqb_refl.
Qed.

Lemma register_then_login_witness :
  exists name,
    @postLogin Fixture.crypto Desk.check
      (Fixture.anonymous
         (VObj [("email", VStr "a@x.com"); ("password", VStr "pw123")]))
      (fst (@postRegister Fixture.crypto
              (Fixture.anonymous
                 (VObj [("email", VStr "a@x.com"); ("password", VStr "pw123")]))
              (@bootstrap Fixture.crypto emptyStore)))
    = (fst (@postRegister Fixture.crypto
              (Fixture.anonymous
                 (VObj [("email", VStr "a@x.com"); ("password", VStr "pw123")]))
              (@bootstrap Fixture.crypto emptyStore)),
       Json 200
         (VObj [("token", VStr "user.jwt");
                ("role", VStr "user");
                ("name", name)])).
Proof.
  apply (@register_then_login Fixture.crypto Desk.check
           (Fixture.anonymous
              (VObj [("email", VStr "a@x.com"); ("password", VStr "pw123")]))
           (@bootstrap Fixture.crypto emptyStore)
           "a@x.com" "pw123" (VStr "user.jwt")).
  - reflexivity.
  - reflexivity.
  - reflexivity.
  - reflexivity.
Defined.

(** ** Start-up *)

Lemma bootstrap_cases {crypto : Crypto} (st : store) :
  (In (SText adminEmail) (map user_email (users st)) /\ bootstrap st = st) \/
  (~ In (SText adminEmail) (map user_email (users st)) /\
   bootstrap st
   = mkStore (users st
                ++ [mkUser (nextId (map user_id (users st))) (SText adminEmail)
                           (SText (bcryptHash "adminpass"))
                           (SText "Administrator") (SText "admin")])
             (athletes st) (races st) (results st) (fantasy_scores st)).
Proof.
  unfold bootstrap.
  destruct (existsb (fun u => sqlval_eqb (user_email u) (SText adminEmail))
                    (users st)) eqn:Hex.
  - left. split; [now apply email_taken|reflexivity].
  - right. split.
    + intros Hin. apply email_taken in Hin. congruence.
    + unfold insertUser. cbn -[existsb nextId sqlval_eqb].
      change (sqlval_eqb (SText adminEmail) SNull) with false.
      cbn [negb andb]. rewrite Hex. reflexivity.
Qed.

(** X16. The start-up insertion of the default admin happens once: it
    keeps the users already there, leaves a user with the admin e-mail
    in the table, and running it again changes nothing; when no user
    had that e-mail, the row added is the Administrator with role
    'admin', and logging in with the default password (bcrypt
    accepting it against its own hash) answers with role 'admin'. *)
Theorem bootstrap_once {crypto : Crypto} {check : PasswordCheck} (st : store) :
  bootstrap (bootstrap st) = bootstrap st /\
  In (SText adminEmail) (map user_email (users (bootstrap st))) /\
  (exists added, users (bootstrap st) = (users st ++ added)%list) /\
  (~ In (SText adminEmail) (map user_email (users st)) ->
   users (bootstrap st)
   = (users st
        ++ [mkUser (nextId (map user_id (users st))) (SText adminEmail)
                   (SText (bcryptHash "adminpass")) (SText "Administrator")
                   (SText "admin")])%list /\
   (bcryptCompare "adminpass" (bcryptHash "adminpass") = true ->
    exists t,
      postLogin (mkRequest None
                   (VObj [("email", VStr adminEmail);
                          ("password", VStr "adminpass")]))
                (bootstrap st)
      = (bootstrap st,
         Json 200 (VObj [("token", t); ("role", VStr "admin");
                         ("name", VStr "Administrator")])))).
Proof.
  destruct (bootstrap_cases st) as [[Hin E]|[Hn E]].
  - rewrite !E. split; [reflexivity|split; [exact Hin|split]].
    + exists []. now rewrite app_nil_r.
    + intros Hn. contradiction.
  - assert (In (SText adminEmail) (map user_email (users (bootstrap st))))
      as Hin.
    { rewrite E. simpl. rewrite map_app. apply in_or_app. right. now left. }
    split; [|split; [exact Hin|split]].
    + destruct (bootstrap_cases (bootstrap st)) as [[_ E2]|[Hn2 _]];
        [exact E2|contradiction].
    + rewrite E. simpl. eexists. reflexivity.
    + intros _. rewrite E. split; [reflexivity|].
      intros Hcheck. eexists.
      unfold postLogin, runHandler, loginHandler, bindM, lift, selectUserByEmail.
      cbn -[find nextId].
      rewrite (find_snoc (fun u => sqlEq (user_email u) (SText adminEmail))).
      * cbn. rewrite Hcheck. reflexivity.
      * destruct (existsb (fun u => sqlEq (user_email u) (SText adminEmail))
                          (users st)) eqn:Hex; [|reflexivity].
        elim Hn. apply email_taken. rewrite <- Hex.
        apply existsb_pointwise. intros u. symmetry. apply sqlEq_text.
      * reflexivity.
Qed.

Lemma bootstrap_once_witness :
  users (@bootstrap Fixture.crypto emptyStore)
  = [mkUser 1 (SText "admin@sbx.local") (SText "$2b$10$adminpass")
            (SText "Administrator") (SText "admin")].
Proof.
  apply (proj2 (proj2 (proj2 (@bootstrap_once Fixture.crypto Desk.check
                                emptyStore)))).
  intros H; exact H.
Defined.

(** ** Scores for athletes that are not in the table *)

Lemma entryPoints_other (R x : value) (A id : Z) :
  getProp x "athleteId" = Ok (VNum A) -> A <> id -> entryPoints R id x = 0.
Proof.
  intros Ha Hne. unfold entryPoints, entryCells, bind. rewrite Ha.
  destruct (calculatePointsForResult x) as [pts|e]; [|reflexivity].
  destruct (getProp x "place") as [p|e]; [|reflexivity].
  destruct (getProp x "time") as [t|e]; [|reflexivity].
  destruct (bindParameter R) as [rc|e]; [|reflexivity].
  simpl bindParameter. cbv beta iota.
  destruct (bindParameter p) as [pc|e]; [|reflexivity].
  destruct (bindParameter (orElse t VNull)) as [tc|e]; [|reflexivity].
  destruct (bindParameter pts) as [sc|e]; [|reflexivity].
  simpl. destruct (Z.eqb_spec A id); [contradiction|reflexivity].
Qed.

Lemma admin_gate_witness :
  fst (@adminRoute Fixture.crypto athletesHandler
         (Fixture.asUser (VObj [("name", VStr "Jane Doe"); ("country", VStr "USA")]))
         Fixture.season)
  = Fixture.season.
Proof.
  apply (proj2 (@admin_gate Fixture.crypto
                  (Fixture.asUser
                     (VObj [("name", VStr "Jane Doe"); ("country", VStr "USA")])))).
  intros (user & Ha & Hr). injection Ha as <-. discriminate Hr.
Defined.

(** * The results endpoint as a queue of statements *)

Lemma bindParameter_total (v : value) : exists c, bindParameter v = Ok c.
Proof. destruct v; simpl; eauto. Qed.

Lemma storeEntry_queue (raceId r : value) (st : store) :
  storeEntry raceId r st
  = match queueEntry raceId r with
    | Ok q => (executeAll q st, Ok tt)
    | Throw e => (st, Throw e)
    end.
Proof.
  rewrite storeEntry_cells. unfold entryCells, queueEntry, bind.
  destruct (calculatePointsForResult r) as [pts|e]; [|reflexivity].
  destruct (getProp r "athleteId") as [a|e]; [|reflexivity].
  destruct (getProp r "place") as [p|e]; [|reflexivity].
  destruct (getProp r "time") as [t|e]; [|reflexivity].
  destruct (bindParameter raceId) as [rc|e]; [|reflexivity].
  destruct (bindParameter a) as [ac|e]; [|reflexivity].
  destruct (bindParameter p) as [pc|e]; [|reflexivity].
  destruct (bindParameter (orElse t VNull)) as [tc|e]; [|reflexivity].
  destruct (bindParameter pts) as [sc|e]; reflexivity.
Qed.

Lemma executeAll_app (q q' : list statement) (st : store) :
  executeAll (q ++ q') st = executeAll q' (executeAll q st).
Proof. unfold executeAll. apply fold_left_app. Qed.

Lemma forEach_queue (R : value) (xs : list value) :
  forall st,
    forEach xs (storeEntry R) st
    = (executeAll (fst (queueAll R xs)) st, snd (queueAll R xs)).
Proof.
  induction xs as [|x xs IH]; intros st; simpl; [reflexivity|].
  unfold bindM. rewrite storeEntry_queue.
  destruct (queueEntry R x) as [q|e]; [|reflexivity].
  rewrite IH. destruct (queueAll R xs) as [q' o]. simpl.
  now rewrite executeAll_app.
Qed.

(** The store [postResults] returns is the store once the statements
    the request queued have run, in the order they were queued and
    with nothing in between. *)
Lemma postResults_queue {crypto : Crypto} (req : request) (st : store) :
  postResults req st
  = (executeAll (fst (submitResults req)) st, snd (submitResults req)).
Proof.
  unfold postResults, adminRoute, submitResults.
  destruct (authMiddleware req) as [user|r]; [|reflexivity].
  destruct (requireAdmin user) as [[]|r]; [|reflexivity].
  unfold runHandler, resultsHandler, resultsQueue, bindM, lift.
  destruct (getProp (body req) "raceId") as [R|e]; [|reflexivity].
  destruct (getProp (body req) "results") as [rs|e]; [|reflexivity].
  destruct (negb (truthy R) || negb (isArray rs)); [reflexivity|].
  rewrite forEach_queue.
  destruct (queueAll R _) as [q [[]|e]]; reflexivity.
Qed.

Lemma filter_length_permutation {A : Type} (f : A -> bool) (l l' : list A) :
  Permutation l l' ->
  List.length (filter f l) = List.length (filter f l').
Proof.
  induction 1 as [|x l l' _ IH|x y l|l l' l'' _ IH1 _ IH2]; simpl.
  - reflexivity.
  - destruct (f x); simpl; now rewrite IH.
  - destruct (f x), (f y); reflexivity.
  - now rewrite IH1.
Qed.

Lemma executeAll_counts (key : result) (q : list statement) :
  forall st,
    List.length (filter (resultMatches key) (results (executeAll q st)))
    = (List.length (filter (resultMatches key) (results st))
       + List.length (filter (insertsResultLike key) q))%nat /\
    List.length (filter (scoreMatches key) (fantasy_scores (executeAll q st)))
    = (List.length (filter (scoreMatches key) (fantasy_scores st))
       + List.length (filter (insertsScoreLike key) q))%nat.
Proof.
  induction q as [|s q IH]; intros st; [simpl; lia|].
  change (executeAll (s :: q) st) with (executeAll q (execute s st)).
  destruct (IH (execute s st)) as [HR HF]. rewrite HR, HF.
  destruct s as [rc ac pc tc sc|ac rc sc]; simpl;
    rewrite filter_app, length_app; simpl.
  - unfold resultMatches at 2. simpl.
    destruct (sqlval_eqb ac (result_athleteId key)
              && sqlval_eqb rc (result_raceId key)
              && sqlval_eqb sc (result_points key)); simpl; lia.
  - unfold scoreMatches at 2. simpl.
    destruct (sqlval_eqb ac (result_athleteId key)
              && sqlval_eqb rc (result_raceId key)
              && sqlval_eqb sc (result_points key)); simpl; lia.
Qed.

Lemma executeAll_lengths (q : list statement) :
  forall st,
    List.length (results (executeAll q st))
    = (List.length (results st)
       + List.length (filter (fun s => match s with
                                       | InsertResult _ _ _ _ _ => true
                                       | InsertScore _ _ _ => false
                                       end) q))%nat /\
    List.length (fantasy_scores (executeAll q st))
    = (List.length (fantasy_scores st)
       + List.length (filter (fun s => match s with
                                       | InsertResult _ _ _ _ _ => false
                                       | InsertScore _ _ _ => true
                                       end) q))%nat.
Proof.
  induction q as [|s q IH]; intros st; [simpl; lia|].
  change (executeAll (s :: q) st) with (executeAll q (execute s st)).
  destruct (IH (execute s st)) as [HR HF]. rewrite HR, HF.
  destruct s; simpl; rewrite ?length_app; simpl; lia.
Qed.

(** Every entry queues one INSERT for each table, with the same
    (athleteId, raceId, points). *)
Lemma queueAll_pairs (R : value) (xs : list value) (key : result) :
  List.length (filter (insertsResultLike key) (fst (queueAll R xs)))
  = List.length (filter (insertsScoreLike key) (fst (queueAll R xs))) /\
  (snd (queueAll R xs) = Ok tt ->
   List.length (filter (fun s => match s with
                                 | InsertResult _ _ _ _ _ => true
                                 | InsertScore _ _ _ => false
                                 end) (fst (queueAll R xs)))
   = List.length xs /\
   List.length (filter (fun s => match s with
                                 | InsertResult _ _ _ _ _ => false
                                 | InsertScore _ _ _ => true
                                 end) (fst (queueAll R xs)))
   = List.length xs).
Proof.
  induction xs as [|x xs [IH1 IH2]]; simpl; [auto|].
  unfold queueEntry, bind.
  destruct (calculatePointsForResult x) as [pts|e]; [|split; [reflexivity|discriminate]].
  destruct (getProp x "athleteId") as [a|e]; [|split; [reflexivity|discriminate]].
  destruct (getProp x "place") as [p|e]; [|split; [reflexivity|discriminate]].
  destruct (getProp x "time") as [t|e]; [|split; [reflexivity|discriminate]].
  destruct (bindParameter R) as [rc|e]; [|split; [reflexivity|discriminate]].
  destruct (bindParameter a) as [ac|e]; [|split; [reflexivity|discriminate]].
  destruct (bindParameter p) as [pc|e]; [|split; [reflexivity|discriminate]].
  destruct (bindParameter (orElse t VNull)) as [tc|e];
    [|split; [reflexivity|discriminate]].
  destruct (bindParameter pts) as [sc|e]; [|split; [reflexivity|discriminate]].
  destruct (queueAll R xs) as [q o]. simpl in *.
  split.
  - destruct (sqlval_eqb ac (result_athleteId key)
              && sqlval_eqb rc (result_raceId key)
              && sqlval_eqb sc (result_points key)); simpl; now rewrite IH1.
  - intros Ho. destruct (IH2 Ho) as [H1 H2]. now rewrite H1, H2.
Qed.

Lemma submitResults_stored {crypto : Crypto} (req : request) :
  snd (submitResults req) = stored ->
  exists R xs,
    getProp (body req) "results" = Ok (VArr xs) /\
    fst (submitResults req) = fst (queueAll R xs) /\
    snd (queueAll R xs) = Ok tt.
Proof.
  unfold submitResults.
  destruct (authMiddleware req) as [user|r] eqn:Ha.
  - destruct (requireAdmin user) as [[]|r] eqn:Hr.
    + unfold resultsQueue.
      destruct (getProp (body req) "raceId") as [R|e]; [|discriminate].
      destruct (getProp (body req) "results") as [rs|e]; [|discriminate].
      destruct (negb (truthy R) || negb (isArray rs)) eqn:G; [discriminate|].
      apply orb_false_iff in G as [_ G]. apply negb_false_iff in G.
      destruct rs; try discriminate G.
      destruct (queueAll R xs) as [q [[]|e]] eqn:Hq; simpl; [|discriminate].
      intros _. exists R, xs. rewrite Hq. auto.
    + simpl. intros ->. apply requireAdmin_answers in Hr. discriminate.
  - simpl. intros ->. apply authMiddleware_answers in Ha. discriminate.
Qed.

Lemma resultMatches_self (r : result) : resultMatches r r = true.
Proof.
  unfold resultMatches.
  now rewrite !(proj2 (sqlval_eqb_eq _ _) eq_refl).
Qed.

(** C5 (amended). A successful ingestion answers with one INSERT queued
    for each table per entry of the batch, the two with the same
    (athleteId, raceId, points).  So once the queued statements have
    run, in whatever order, on a store in which every (athleteId,
    raceId, points) is carried by as many FantasyScore rows as Result
    rows, that is still so; each table has grown by one row per entry;
    and every Result row has at least one FantasyScore row with its
    (athleteId, raceId) and points: exactly one only when the triple
    was submitted once. *)
Theorem C5_rows_balanced {crypto : Crypto} (req : request) (st : store)
        (q : list statement) :
  snd (submitResults req) = stored ->
  Permutation q (fst (submitResults req)) ->
  balanced st ->
  balanced (executeAll q st) /\
  (exists xs,
      getProp (body req) "results" = Ok (VArr xs) /\
      List.length (results (executeAll q st))
      = (List.length (results st) + List.length xs)%nat /\
      List.length (fantasy_scores (executeAll q st))
      = (List.length (fantasy_scores st) + List.length xs)%nat) /\
  (forall r, In r (results (executeAll q st)) ->
     exists f, In f (fantasy_scores (executeAll q st)) /\
               scoreMatches r f = true).
Proof.
  intros Hok Hperm Hbal.
  destruct (submitResults_stored req Hok) as (R & xs & Hxs & Hq & Hsucc).
  rewrite Hq in Hperm.
  assert (balanced (executeAll q st)) as Hbal'.
  { intros key. destruct (executeAll_counts key q st) as [-> ->].
    rewrite (Hbal key).
    rewrite (filter_length_permutation (insertsResultLike key) _ _ Hperm).
    rewrite (filter_length_permutation (insertsScoreLike key) _ _ Hperm).
    now rewrite (proj1 (queueAll_pairs R xs key)). }
  split; [exact Hbal'|split].
  - exists xs. split; [exact Hxs|].
    destruct (executeAll_lengths q st) as [-> ->].
    rewrite !(filter_length_permutation _ _ _ Hperm).
    destruct (proj2 (queueAll_pairs R xs (mkResult 0 SNull SNull SNull SNull SNull))
                    Hsucc) as [-> ->].
    auto.
  - intros r Hr.
    assert (In r (filter (resultMatches r) (results (executeAll q st)))) as Hin.
    { apply filter_In. split; [exact Hr|apply resultMatches_self]. }
    specialize (Hbal' r).
    destruct (filter (scoreMatches r) (fantasy_scores (executeAll q st)))
      as [|f fs] eqn:E.
    + destruct (filter (resultMatches r) (results (executeAll q st)));
        [contradiction|discriminate].
    + exists f.
      assert (In f (filter (scoreMatches r) (fantasy_scores (executeAll q st))))
        as Hf by (rewrite E; now left).
      apply filter_In in Hf. exact Hf.
Qed.

Lemma C5_rows_balanced_witness :
  balanced Fixture.season /\
  balanced
    (executeAll (fst (@submitResults Fixture.crypto
                        (Fixture.asAdmin Fixture.twice)))
                Fixture.season).
Proof.
  assert (balanced Fixture.season) as Hb.
  { intros key. unfold Fixture.season. cbn [results fantasy_scores filter].
    change (scoreMatches key (mkFantasyScore 1 (SInt 2) (SInt 1) (SInt 65)))
      with (resultMatches key
              (mkResult 1 (SInt 1) (SInt 2) (SInt 3) SNull (SInt 65))).
    destruct (resultMatches key _); reflexivity. }
  split; [exact Hb|].
  apply (@C5_rows_balanced Fixture.crypto (Fixture.asAdmin Fixture.twice)
                           Fixture.season _ eq_refl (Permutation_refl _) Hb).
Defined.

Lemma submitResults_cleared {crypto : Crypto} (req : request) :
  cleared req -> submitResults req = resultsQueue (body req).
Proof.
  intros (user & Ha & Hr). unfold submitResults. now rewrite Ha, Hr.
Qed.

Lemma resultsQueue_run (reqBody R : value) (xs : list value) :
  getProp reqBody "raceId" = Ok R ->
  truthy R = true ->
  getProp reqBody "results" = Ok (VArr xs) ->
  resultsQueue reqBody
  = (fst (queueAll R xs),
     match snd (queueAll R xs) with
     | Ok _ => stored
     | Throw e => Uncaught e
     end).
Proof.
  intros H1 Ht H2. unfold resultsQueue. rewrite H1, H2, Ht. simpl.
  destruct (queueAll R xs) as [q [[]|e]]; reflexivity.
Qed.

Lemma queueEntry_number (R entry : value) (rc : sqlval) (A p : Z) :
  bindParameter R = Ok rc ->
  getProp entry "athleteId" = Ok (VNum A) ->
  getProp entry "place" = Ok (VNum p) ->
  exists tc,
    queueEntry R entry
    = Ok [InsertResult rc (SInt A) (SInt p) tc (SInt (placeScore p));
          InsertScore (SInt A) rc (SInt (placeScore p))].
Proof.
  intros Br Ha Hp. unfold queueEntry.
  rewrite (calculate_number entry p Hp), Ha, Hp. cbn [bind].
  destruct (getProp entry "time") as [t|e] eqn:Ht.
  - destruct (bindParameter_total (orElse t VNull)) as [tc Htc].
    exists tc. cbn [bind]. rewrite Br. cbn [bind bindParameter].
    rewrite Htc. reflexivity.
  - apply (getProp_throws _ _ "place") in Ht. congruence.
Qed.

Lemma executeAll_pair (st : store) (rc ac pc tc sc : sqlval) (q : list statement) :
  Permutation q [InsertResult rc ac pc tc sc; InsertScore ac rc sc] ->
  executeAll q st = withEntry st rc ac pc tc sc.
Proof.
  intros H. apply Permutation_sym, Permutation_length_2_inv in H.
  destruct H as [->| ->]; reflexivity.
Qed.

(** C9. When an admin submits one more result for a (race, athlete)
    pair, whether or not the pair already has rows, the request is
    answered with success and with exactly two statements queued: an
    INSERT of a Result row and an INSERT of a FantasyScore row for the
    pair, no update and no rejection.  Once the two have run, in either
    order, on a store where the pair has a Result row, that row is
    still there, the pair has one Result row and one FantasyScore row
    more, and the athlete's total in the ledger and in the standings
    has grown by the points of the new row. *)
Theorem C9_resubmission_accumulates {crypto : Crypto} (req : request)
        (R A p : Z) (entry : value) :
  cleared req ->
  body req = VObj [("raceId", VNum R); ("results", VArr [entry])] ->
  R <> 0 ->
  getProp entry "athleteId" = Ok (VNum A) ->
  getProp entry "place" = Ok (VNum p) ->
  snd (submitResults req) = stored /\
  exists tc,
    fst (submitResults req)
    = [InsertResult (SInt R) (SInt A) (SInt p) tc (SInt (placeScore p));
       InsertScore (SInt A) (SInt R) (SInt (placeScore p))] /\
    forall (st : store) (q : list statement) (r0 : result),
      Permutation q (fst (submitResults req)) ->
      In r0 (resultsOfPair st R A) ->
      results (executeAll q st)
      = (results st
           ++ [mkResult (nextId (map result_id (results st)))
                        (SInt R) (SInt A) (SInt p) tc (SInt (placeScore p))])%list /\
      fantasy_scores (executeAll q st)
      = (fantasy_scores st
           ++ [mkFantasyScore (nextId (map fs_id (fantasy_scores st)))
                              (SInt A) (SInt R) (SInt (placeScore p))])%list /\
      In r0 (resultsOfPair (executeAll q st) R A) /\
      List.length (resultsOfPair (executeAll q st) R A)
      = S (List.length (resultsOfPair st R A)) /\
      List.length (scoresOfPair (executeAll q st) R A)
      = S (List.length (scoresOfPair st R A)) /\
      ledgerTotal (fantasy_scores (executeAll q st)) A
      = ledgerTotal (fantasy_scores st) A + placeScore p /\
      (athleteKeys st ->
       totalOf (executeAll q st) A
       = option_map (fun total => total + placeScore p) (totalOf st A)).
Proof.
  intros Hc Hb HR Ha Hp.
  destruct (queueEntry_number (VNum R) entry (SInt R) A p eq_refl Ha Hp)
    as [tc Hq].
  assert (submitResults req
          = ([InsertResult (SInt R) (SInt A) (SInt p) tc (SInt (placeScore p));
              InsertScore (SInt A) (SInt R) (SInt (placeScore p))], stored)) as E.
  { rewrite (submitResults_cleared req Hc), Hb.
    rewrite (resultsQueue_run
               (VObj [("raceId", VNum R); ("results", VArr [entry])])
               (VNum R) [entry] eq_refl).
    - simpl. rewrite Hq. reflexivity.
    - simpl. destruct (Z.eqb_spec R 0); [contradiction|reflexivity].
    - reflexivity. }
  rewrite E. split; [reflexivity|]. exists tc. split; [reflexivity|].
  intros st q r0 Hperm Hr0. simpl fst in Hperm.
  rewrite (executeAll_pair st _ _ _ _ _ q Hperm).
  split; [reflexivity|split; [reflexivity|]].
  unfold resultsOfPair, scoresOfPair in *. simpl results; simpl fantasy_scores.
  rewrite !filter_snoc_true by (simpl; now rewrite !Z.eqb_refl).
  rewrite !length_app. simpl List.length.
  split; [apply in_or_app; now left|].
  split; [lia|split; [lia|split]].
  - rewrite ledgerTotal_snoc. simpl. now rewrite Z.eqb_refl.
  - intros Hk. rewrite (totalOf_withEntry _ _ _ _ _ _ A Hk).
    simpl. now rewrite Z.eqb_refl.
Qed.

Lemma C9_resubmission_accumulates_witness :
  snd (@submitResults Fixture.crypto
         (Fixture.asAdmin
            (VObj [("raceId", VNum 1);
                   ("results",
                    VArr [VObj [("athleteId", VNum 2); ("place", VNum 1)]])])))
  = stored.
Proof.
  apply (@C9_resubmission_accumulates Fixture.crypto
           (Fixture.asAdmin
              (VObj [("raceId", VNum 1);
                     ("results",
                      VArr [VObj [("athleteId", VNum 2); ("place", VNum 1)]])]))
           1 2 1 (VObj [("athleteId", VNum 2); ("place", VNum 1)])).
  - exists Fixture.adminUser. split; reflexivity.
  - reflexivity.
  - discriminate.
  - reflexivity.
  - reflexivity.
Defined.

Lemma roundTripBatch_queue (R : value) (rc : sqlval) :
  truthy R = true ->
  bindParameter R = Ok rc ->
  resultsQueue (roundTripBatch R)
  = ([InsertResult rc (SInt 1) (SInt 1) SNull (SInt 100);
      InsertScore (SInt 1) rc (SInt 100);
      InsertResult rc (SInt 2) (SInt 2) SNull (SInt 80);
      InsertScore (SInt 2) rc (SInt 80)], stored).
Proof.
  intros Ht Br.
  rewrite (resultsQueue_run (roundTripBatch R) R
             [VObj [("athleteId", VNum 1); ("place", VNum 1)];
              VObj [("athleteId", VNum 2); ("place", VNum 2)]] eq_refl Ht eq_refl).
  assert (queueEntry R (VObj [("athleteId", VNum 1); ("place", VNum 1)])
          = Ok [InsertResult rc (SInt 1) (SInt 1) SNull (SInt 100);
                InsertScore (SInt 1) rc (SInt 100)]) as E1.
  { unfold queueEntry.
    rewrite (calculate_number (VObj [("athleteId", VNum 1); ("place", VNum 1)])
                              1 eq_refl).
    simpl. rewrite Br. reflexivity. }
  assert (queueEntry R (VObj [("athleteId", VNum 2); ("place", VNum 2)])
          = Ok [InsertResult rc (SInt 2) (SInt 2) SNull (SInt 80);
                InsertScore (SInt 2) rc (SInt 80)]) as E2.
  { unfold queueEntry.
    rewrite (calculate_number (VObj [("athleteId", VNum 2); ("place", VNum 2)])
                              2 eq_refl).
    simpl. rewrite Br. reflexivity. }
  cbn [queueAll]. rewrite E1, E2. reflexivity.
Qed.

(** C7. The batch {raceId: R, results: [{athleteId: 1, place: 1},
    {athleteId: 2, place: 2}]} of an admin is answered 'Results stored
    and points calculated' while its four INSERT statements are only
    queued: the handler has written nothing when it answers, so a read
    of the standings served then shows the totals as they were.
    Athlete 1 has 100 more and athlete 2 has 80 more only once the
    queued statements have run. *)
Theorem C7_answer_precedes_writes {crypto : Crypto} (req : request)
        (R : value) (rc : sqlval) :
  cleared req ->
  body req = roundTripBatch R ->
  truthy R = true ->
  bindParameter R = Ok rc ->
  submitResults req
  = ([InsertResult rc (SInt 1) (SInt 1) SNull (SInt 100);
      InsertScore (SInt 1) rc (SInt 100);
      InsertResult rc (SInt 2) (SInt 2) SNull (SInt 80);
      InsertScore (SInt 2) rc (SInt 80)], stored) /\
  forall st : store,
    athleteKeys st ->
    totalOf (executeAll (fst (submitResults req)) st) 1
    = option_map (fun t => t + 100) (totalOf st 1) /\
    totalOf (executeAll (fst (submitResults req)) st) 2
    = option_map (fun t => t + 80) (totalOf st 2).
Proof.
  intros Hc Hb Ht Br.
  assert (submitResults req
          = ([InsertResult rc (SInt 1) (SInt 1) SNull (SInt 100);
              InsertScore (SInt 1) rc (SInt 100);
              InsertResult rc (SInt 2) (SInt 2) SNull (SInt 80);
              InsertScore (SInt 2) rc (SInt 80)], stored)) as E.
  { rewrite (submitResults_cleared req Hc), Hb.
    exact (roundTripBatch_queue R rc Ht Br). }
  split; [exact E|]. rewrite E. intros st Hk. simpl fst.
  change (executeAll _ st)
    with (withEntry (withEntry st rc (SInt 1) (SInt 1) SNull (SInt 100))
                    rc (SInt 2) (SInt 2) SNull (SInt 80)).
  assert (athleteKeys (withEntry st rc (SInt 1) (SInt 1) SNull (SInt 100)))
    as Hk1 by exact Hk.
  split.
  - rewrite (totalOf_withEntry _ _ _ _ _ _ 1 Hk1),
            (totalOf_withEntry _ _ _ _ _ _ 1 Hk).
    destruct (totalOf st 1); simpl; [f_equal; lia|reflexivity].
  - rewrite (totalOf_withEntry _ _ _ _ _ _ 2 Hk1),
            (totalOf_withEntry _ _ _ _ _ _ 2 Hk).
    destruct (totalOf st 2); simpl; [f_equal; lia|reflexivity].
Qed.

Lemma C7_answer_precedes_writes_witness :
  @submitResults Fixture.crypto (Fixture.asAdmin (roundTripBatch (VNum 1)))
  = ([InsertResult (SInt 1) (SInt 1) (SInt 1) SNull (SInt 100);
      InsertScore (SInt 1) (SInt 1) (SInt 100);
      InsertResult (SInt 1) (SInt 2) (SInt 2) SNull (SInt 80);
      InsertScore (SInt 2) (SInt 1) (SInt 80)], stored).
Proof.
  apply (@C7_answer_precedes_writes Fixture.crypto
           (Fixture.asAdmin (roundTripBatch (VNum 1))) (VNum 1) (SInt 1)).
  - exists Fixture.adminUser. split; reflexivity.
  - reflexivity.
  - reflexivity.
  - reflexivity.
Defined.

(** * Tokens as the library returns them *)

(** X15. A token the server signed, sent the way the client sends it:
    if the token has no blank and verifies to a user with the role of
    the payload that was signed (the library adds the times iat and exp
    to what it returns), an admin route runs its handler when that role
    is 'admin', and otherwise answers 403 and leaves the store as it
    was.  So the token of a registration (role 'user') opens no admin
    route. *)
Theorem signed_token_gate {crypto : Crypto} (payload user reqBody : value)
        (h : value -> M response) (st : store) :
  jwtVerify (generateToken payload) = Some user ->
  getProp user "role" = getProp payload "role" ->
  noBlank (generateToken payload) = true ->
  (getProp payload "role" = Ok (VStr "admin") ->
   adminRoute h (mkRequest (Some (setAuth (generateToken payload))) reqBody) st
   = runHandler (h reqBody) st) /\
  (getProp payload "role" <> Ok (VStr "admin") ->
   adminRoute h (mkRequest (Some (setAuth (generateToken payload))) reqBody) st
   = (st, Json 403 (message "Admin required"))).
Proof.
  intros Hv Hrole Hnb.
  assert (authMiddleware
            (mkRequest (Some (setAuth (generateToken payload))) reqBody)
          = Next user) as Ha.
  { unfold authMiddleware. cbn [authorization].
    rewrite setAuth_token, (firstWord_noBlank _ Hnb), Hv. reflexivity. }
  unfold adminRoute. rewrite Ha. rewrite <- Hrole. split; intros Hr.
  - apply requireAdmin_passes in Hr. now rewrite Hr.
  - destruct (requireAdmin user) as [[]|r] eqn:E.
    + elim Hr. now apply requireAdmin_passes.
    + now rewrite (requireAdmin_answers _ _ E).
Qed.

Lemma signed_token_gate_witness :
  @adminRoute Clock.crypto athletesHandler
     (mkRequest (Some (setAuth (@generateToken Clock.crypto Desk.janePayload)))
                (VObj [("name", VStr "Jane Doe"); ("country", VStr "USA")]))
     Fixture.season
  = (Fixture.season, Json 403 (message "Admin required")).
Proof.
  apply (proj2 (@signed_token_gate Clock.crypto Desk.janePayload
                  (Clock.stamped Desk.janePayload)
                  (VObj [("name", VStr "Jane Doe"); ("country", VStr "USA")])
                  athletesHandler Fixture.season eq_refl eq_refl eq_refl)).
  discriminate.
Defined.

(** * Batches for athletes that are not in the table *)

Lemma plain_place_scores (x pl : value) :
  getProp x "place" = Ok pl -> plainPlace pl = true ->
  exists pts, calculatePointsForResult x = Ok pts.
Proof.
  intros Hp Hplain.
  assert (exists key, toPropertyKey pl = Ok key) as [key Hk].
  { destruct pl as [| |[|]| | | |]; try discriminate Hplain;
      simpl; eexists; reflexivity. }
  rewrite (calculate_with_member x pl key Hp Hk). eexists. reflexivity.
Qed.

Lemma entryCells_plain (R x pl : value) (A : Z) :
  getProp x "athleteId" = Ok (VNum A) ->
  getProp x "place" = Ok pl -> plainPlace pl = true ->
  exists c, entryCells R x = Ok c.
Proof.
  intros Ha Hp Hplain.
  destruct (plain_place_scores x pl Hp Hplain) as [pts Hc].
  unfold entryCells. rewrite Hc, Ha, Hp. cbn [bind].
  destruct (getProp x "time") as [t|e] eqn:Ht;
    [|apply (getProp_throws _ _ "place") in Ht; congruence].
  cbn [bind].
  destruct (bindParameter_total R) as [rc ->].
  destruct (bindParameter_total (VNum A)) as [ac ->].
  destruct (bindParameter_total pl) as [pc ->].
  destruct (bindParameter_total (orElse t VNull)) as [tc ->].
  destruct (bindParameter_total pts) as [sc ->].
  eexists. reflexivity.
Qed.

(** X18. The results endpoint does not check that an athlete exists:
    when an admin submits, for a race reference the guard accepts, a
    batch whose entries all name athlete ids (numbers) that are not in
    the athletes table, with places that are not arrays or objects, the
    batch is ingested successfully, one Result row and one FantasyScore
    row are written per entry, and the standings stay exactly as they
    were. *)
Theorem unknown_athletes_not_listed {crypto : Crypto} (h : option string)
        (R : value) (xs : list value) (st : store) :
  cleared (mkRequest h (resultsBody R xs)) ->
  truthy R = true ->
  athleteKeys st ->
  Forall (fun x => exists A pl,
              getProp x "athleteId" = Ok (VNum A) /\
              ~ In A (map athlete_id (athletes st)) /\
              getProp x "place" = Ok pl /\ plainPlace pl = true) xs ->
  snd (postResults (mkRequest h (resultsBody R xs)) st) = stored /\
  standings (fst (postResults (mkRequest h (resultsBody R xs)) st))
  = standings st /\
  List.length (results (fst (postResults (mkRequest h (resultsBody R xs)) st)))
  = (List.length (results st) + List.length xs)%nat /\
  List.length
    (fantasy_scores (fst (postResults (mkRequest h (resultsBody R xs)) st)))
  = (List.length (fantasy_scores st) + List.length xs)%nat.
Proof.
  intros Hc Ht Hk Hunknown.
  unfold postResults. rewrite (cleared_route _ _ _ Hc).
  cbn [body]. rewrite (resultsBody_run R xs st Ht).
  assert (snd (forEach xs (storeEntry R) st) = Ok tt) as Hsucc.
  { apply forEach_succeeds_iff.
    apply (Forall_impl _ (P := fun x => exists A pl,
                                  getProp x "athleteId" = Ok (VNum A) /\
                                  ~ In A (map athlete_id (athletes st)) /\
                                  getProp x "place" = Ok pl /\
                                  plainPlace pl = true)); [|exact Hunknown].
    intros x (A & pl & Ha & _ & Hp & Hplain).
    exact (entryCells_plain R x pl A Ha Hp Hplain). }
  destruct (forEach_ledger R xs st) as (_ & Ha & _ & _ & Hsum).
  destruct (forEach xs (storeEntry R) st) as [st' [[]|e]] eqn:Hf;
    [|discriminate].
  simpl in *.
  destruct (forEach_storeEntry R xs st st' (Ok tt) Hf) as (n & Hg & Hn).
  destruct (grows_frame _ _ _ Hg) as (_ & _ & _ & newR & newF & ER & EF & LR & LF).
  rewrite (Hn eq_refl) in LR, LF.
  split; [reflexivity|].
  split; [|split; [rewrite ER, length_app; lia|rewrite EF, length_app; lia]].
  assert (athleteKeys st') as Hk' by (unfold athleteKeys; now rewrite Ha).
  rewrite (standings_closed_form st' Hk'), (standings_closed_form st Hk), Ha.
  f_equal. apply map_ext_in. intros a Hin. unfold rowOf. f_equal.
  rewrite (Hsum eq_refl).
  assert (fold_right Z.add 0 (map (entryPoints R (athlete_id a)) xs) = 0) as Hz.
  { clear -Hunknown Hin.
    induction Hunknown as [|x xs (A & pl & HA & Hnot & _) _ IH];
      simpl; [reflexivity|].
    rewrite IH, (entryPoints_other R x A (athlete_id a) HA); [reflexivity|].
    intros ->. apply Hnot. now apply in_map. }
  lia.
Qed.

Lemma unknown_athletes_not_listed_witness :
  snd (@postResults Fixture.crypto
         (Fixture.asAdmin
            (resultsBody (VNum 1)
               [VObj [("athleteId", VNum 9); ("place", VNum 1)]]))
         Fixture.season)
  = stored.
Proof.
  apply (@unknown_athletes_not_listed Fixture.crypto (Some "Bearer admin.jwt")
           (VNum 1) [VObj [("athleteId", VNum 9); ("place", VNum 1)]]
           Fixture.season).
  - exists Fixture.adminUser. split; reflexivity.
  - reflexivity.
  - repeat constructor; simpl; intuition discriminate.
  - constructor; [|constructor].
    exists 9, (VNum 1). repeat split. simpl. intuition discriminate.
Defined.
